(** * West: trick resolution, the automated player and the match loop

    A shallow embedding of [src/West.py].  The trick resolver and the
    automated player are functions on cards read as values; Python
    exceptions are values of [Result]; in the match the deck is a store of
    card objects addressed by position, shared by [West.deck], the hands
    and the table, so that a flag written through the deck is seen from
    every hand. *)

From Stdlib Require Import List ZArith Bool Lia Arith Permutation Sorted.
Import ListNotations.

Local Open Scope Z_scope.

(** ** Exceptions *)

Inductive Exn : Type :=
| IndexError      (* [seq[0]] on an empty list *)
| ValueError      (* [list.remove(x)] with [x] absent *)
| AttributeError  (* attribute access on [None] *)
| NoInput.        (* the input ran dry: [player_select] never returns *)

Inductive Result (A : Type) : Type :=
| Ok (a : A)
| Raise (e : Exn).

Arguments Ok {A} a.
Arguments Raise {A} e.

Definition bind {A B : Type} (r : Result A) (k : A -> Result B) : Result B :=
  match r with
  | Ok a => k a
  | Raise e => Raise e
  end.

Notation "x <- r ;; k" := (bind r (fun x => k))
  (at level 61, r at next level, right associativity).
Notation "' p <- r ;; k" := (bind r (fun p => k))
  (at level 61, p pattern, r at next level, right associativity).

(** ** Cards *)

Inductive Suit : Type := HEARTS | DIAMONDS | SPADES | CLUBS.

(** [Num n] is the rank written [str(n)] by [get_deck], or the integer
    [n] itself for the placeholder card of [ai_select]; in both cases
    [int(rank)] is [n]. *)
Inductive Rank : Type := Num (n : Z) | J | Q | K | A.

(** Players are compared by identity ([is], [in]); a player is identified
    by its [name], the sequence number [Player.count] gave it. *)
Definition PlayerId : Type := nat.

Record Card : Type := mkCard {
  rank  : Rank;
  suit  : Suit;
  owner : option PlayerId;
  ato   : bool
}.

Definition Suit_eqb (a b : Suit) : bool :=
  match a, b with
  | HEARTS, HEARTS | DIAMONDS, DIAMONDS | SPADES, SPADES | CLUBS, CLUBS => true
  | _, _ => false
  end.

Definition Suit_eq_dec (a b : Suit) : {a = b} + {a <> b}.
Proof. decide equality. Defined.

Definition Rank_eq_dec (a b : Rank) : {a = b} + {a <> b}.
Proof. decide equality. apply Z.eq_dec. Defined.

Definition Card_eq_dec (a b : Card) : {a = b} + {a <> b}.
Proof.
  decide equality.
  - apply bool_dec.
  - decide equality. apply Nat.eq_dec.
  - apply Suit_eq_dec.
  - apply Rank_eq_dec.
Defined.

(** [Card.order] *)
Definition order (c : Card) : Z :=
  match rank c with
  | J => 11
  | Q => 12
  | K => 13
  | A => 14
  | Num n => n
  end.

(** [a is b] on two optional player references. *)
Definition same_player (a b : option PlayerId) : bool :=
  match a, b with
  | Some x, Some y => Nat.eqb x y
  | None, None => true
  | _, _ => false
  end.

(** ** Trick resolver *)

(** The body of the loop [for card in table] of [winner_card]
    (lines 308-315); [ai_select] repeats it verbatim (lines 218-225).
    The result is the value of [winning_card] after the iteration. *)
Definition challenge (winning_card card : Card) : Card :=
  if (order card >? order winning_card)
     && Suit_eqb (suit card) (suit winning_card)
  then card
  else if ato card then
    if ato winning_card then
      if order card >? order winning_card then card else winning_card
    else card
  else winning_card.

(** [West.winner_card]: [table[0]] raises on an empty table. *)
Definition winner_card (table : list Card) : Result Card :=
  match table with
  | [] => Raise IndexError
  | first :: _ => Ok (fold_left challenge table first)
  end.

(** [West.winner_team] *)
Definition winner_team (table : list Card) : Result (option PlayerId) :=
  w <- winner_card table ;; Ok (owner w).

(** ** Players and hand queries *)

(** A [Player] over the representation [C] of the cards in its hand:
    [Player Card] when the hand is read as values, [Player CardRef] when
    it holds references into the shared deck (section [Match]). *)
Record Player (C : Type) : Type := mkPlayer {
  name     : PlayerId;
  turn     : nat;
  cards    : list C;
  teammate : option PlayerId
}.

Arguments mkPlayer {C} name%_nat turn%_nat cards teammate.
Arguments name {C} p.
Arguments turn {C} p.
Arguments cards {C} p.
Arguments teammate {C} p.

(** The player after an assignment to [self.cards]. *)
Definition with_cards {C D : Type} (self : Player C) (l : list D) : Player D :=
  mkPlayer (name self) (turn self) l (teammate self).

(** [sorted(..., key=lambda x: x.order)]: a stable sort, here by
    insertion. *)
Fixpoint insert_by_order (c : Card) (l : list Card) : list Card :=
  match l with
  | [] => [c]
  | x :: l' =>
      if order c <=? order x then c :: l else x :: insert_by_order c l'
  end.

Definition sort_by_order (l : list Card) : list Card :=
  fold_right insert_by_order [] l.

(** [Player.get_suit] *)
Definition get_suit (self : Player Card) (s : Suit) : list Card :=
  sort_by_order (filter (fun card => Suit_eqb (suit card) s) (cards self)).

(** [Player.has] *)
Definition has (self : Player Card) (s : Suit) : bool :=
  existsb (fun card => Suit_eqb (suit card) s) (cards self).

(** [list.remove(x)]: drops the first element equal to [x].  Python
    compares card objects by identity; the cards of a deck are pairwise
    distinct values, so that identity and equality of values agree. *)
Fixpoint remove_card (x : Card) (l : list Card) : Result (list Card) :=
  match l with
  | [] => Raise ValueError
  | y :: l' =>
      if Card_eq_dec x y then Ok l'
      else l'' <- remove_card x l' ;; Ok (y :: l'')
  end.

(** [self.cards.remove(c); return c] where [c] may be [None]. *)
Definition play (self : Player Card) (c : option Card) : Result (Card * Player Card) :=
  match c with
  | None => Raise ValueError
  | Some card =>
      rest <- remove_card card (cards self) ;;
      Ok (card, with_cards self rest)
  end.

(** ** The automated player *)

(** The synthetic card of line 211: [Card(-1, PokerGame.HEARTS, self)]. *)
Definition placeholder (self : Player Card) : Card :=
  mkCard (Num (-1)) HEARTS (Some (name self)) false.

(** Lines 204-212: the provisional winner and the suit to follow. *)
Definition provisional (self : Player Card) (table : list Card) : Card :=
  match table with
  | first :: _ => first
  | [] => placeholder self
  end.

Definition lead_suit (self : Player Card) (table : list Card) : Suit :=
  suit (provisional self table).

(** Lines 217-225: the current winner of the cards already on the table. *)
Definition current_winner (self : Player Card) (table : list Card) : Card :=
  fold_left challenge table (provisional self table).

(** [winning_card.owner is not self.teammate] *)
Definition not_teammates (self : Player Card) (winning_card : Card) : bool :=
  negb (same_player (owner winning_card) (teammate self)).

(** Lines 233-236: the value of [sm_card] after its loop. *)
Definition sm_card (self : Player Card) (s : Suit) (winning_card : Card)
  : option Card :=
  find (fun card => order card <? order winning_card) (get_suit self s).

(** Lines 238-241: the value of [gr_card] after its loop. *)
Definition gr_card (self : Player Card) (s : Suit) (winning_card : Card)
  : option Card :=
  find (fun card => order card >? order winning_card) (get_suit self s).

(** Lines 244-257: the decision of the branch that follows suit. *)
Definition follow_suit (self : Player Card) (s : Suit) (winning_card : Card)
  : Result (Card * Player Card) :=
  let sm := sm_card self s winning_card in
  let gr := gr_card self s winning_card in
  match gr with
  | Some g =>
      if not_teammates self winning_card
         && Suit_eqb (suit g) (suit winning_card)
      then play self gr
      else match sm with
           | Some _ => play self sm
           | None => play self gr
           end
  | None =>
      match sm with
      | Some _ => play self sm
      | None => play self gr
      end
  end.

(** Lines 271-278: the update of [smallest_card] by one card. *)
Definition track (self : Player Card) (smallest_card card : Card) : Card :=
  if order card <=? order smallest_card then
    if order card =? order smallest_card then
      if (length (get_suit self (suit smallest_card))
          <=? length (get_suit self (suit card)))%nat
      then card
      else smallest_card
    else card
  else smallest_card.

(** Lines 260-278: the loop over the hand; the result is the value of
    [smallest_card] when the loop ends or breaks. *)
Fixpoint discard_scan (self : Player Card) (winning_card : Card)
  (hand : list Card) (smallest_card : Card) : Card :=
  match hand with
  | [] => smallest_card
  | card :: rest =>
      if ato card && not_teammates self winning_card then
        if Suit_eqb (suit card) (suit winning_card) then
          if order card >? order winning_card then card
          else discard_scan self winning_card rest
                 (track self smallest_card card)
        else card
      else discard_scan self winning_card rest
             (track self smallest_card card)
  end.

(** [Player.ai_select]: the card played and the player with that card
    removed from the hand. *)
Definition ai_select (self : Player Card) (table : list Card)
  : Result (Card * Player Card) :=
  let s := lead_suit self table in
  match cards self with
  | [] => Raise IndexError
  | smallest_card :: _ =>
      let winning_card := current_winner self table in
      if has self s then follow_suit self s winning_card
      else play self
             (Some (discard_scan self winning_card (cards self) smallest_card))
  end.

(** ** The match: deck, deal, turns and rounds *)

(** [get_deck] before the shuffle: four suits of thirteen ranks, every
    card without owner and with [ato] false. *)
Definition suits : list Suit := [HEARTS; DIAMONDS; SPADES; CLUBS].

Definition ranks : list Rank :=
  map Num [2; 3; 4; 5; 6; 7; 8; 9; 10] ++ [J; Q; K; A].

Definition fresh_deck : list Card :=
  flat_map (fun s => map (fun r => mkCard r s None false) ranks) suits.

(** [random.shuffle(deck)] returns some rearrangement of the deck. *)
Definition shuffled (deck : list Card) : Prop := Permutation fresh_deck deck.

(** A card object is its position in [West.deck]: the hands and the
    table hold references to the cards of the deck, not copies. *)
Definition CardRef : Type := nat.

(** The card object behind a reference.  The references a deal hands out
    are positions of the deck, so the default is never read. *)
Definition deref (deck : list Card) (r : CardRef) : Card :=
  nth r deck (mkCard (Num 0) HEARTS None false).

(** The hand of a player read through the deck. *)
Definition view (deck : list Card) (p : Player CardRef) : Player Card :=
  with_cards p (map (deref deck) (cards p)).

(** [deck[lo:hi]] as references. *)
Definition slice (deck : list Card) (lo hi : nat) : list CardRef :=
  seq lo (Nat.min hi (length deck) - lo).

(** The deck after [f] was applied to every card object, [i] being the
    position of the first. *)
Fixpoint update_from (i : nat) (f : CardRef -> Card -> Card) (deck : list Card)
  : list Card :=
  match deck with
  | [] => []
  | c :: deck' => f i c :: update_from (S i) f deck'
  end.

(** [for card in self.cards: card.owner = self] of [Player.__init__]. *)
Definition set_owner (p : PlayerId) (refs : list CardRef) (deck : list Card)
  : list Card :=
  update_from 0
    (fun i c =>
       if existsb (Nat.eqb i) refs
       then mkCard (rank c) (suit c) (Some p) (ato c)
       else c)
    deck.

(** [for card in self.deck: if card.suit == played_card.suit: card.ato = True] *)
Definition set_ato (s : Suit) (deck : list Card) : list Card :=
  map (fun card =>
         if Suit_eqb (suit card) s
         then mkCard (rank card) (suit card) (owner card) true
         else card)
      deck.

Record West : Type := mkWest {
  deck      : list Card;
  player_1  : Player CardRef;
  player_2  : Player CardRef;
  player_3  : Player CardRef;
  player_4  : Player CardRef;
  t1_points : Z;
  t2_points : Z
}.

(** [West.__init__] with [prepare_cards], on the deck [get_deck]
    returned. *)
Definition prepare_cards (deck : list Card) : West :=
  let k := 13%nat in
  let h1 := slice deck 0 k in
  let h2 := slice deck k (k * 2) in
  let h3 := slice deck (k * 2) (k * 3) in
  let h4 := slice deck (k * 3) (k * 4) in
  let deck := set_owner 1%nat h1 deck in
  let deck := set_owner 2%nat h2 deck in
  let deck := set_owner 3%nat h3 deck in
  let deck := set_owner 4%nat h4 deck in
  mkWest deck
    (mkPlayer 1%nat 0%nat h1 (Some 3%nat))
    (mkPlayer 2%nat 1%nat h2 (Some 4%nat))
    (mkPlayer 3%nat 2%nat h3 (Some 1%nat))
    (mkPlayer 4%nat 3%nat h4 (Some 2%nat))
    0 0.

(** Dereferencing a player reference. *)
Definition get_player (g : West) (p : option PlayerId)
  : Result (Player CardRef) :=
  match p with
  | None => Raise AttributeError
  | Some n =>
      if Nat.eqb n (name (player_1 g)) then Ok (player_1 g)
      else if Nat.eqb n (name (player_2 g)) then Ok (player_2 g)
      else if Nat.eqb n (name (player_3 g)) then Ok (player_3 g)
      else if Nat.eqb n (name (player_4 g)) then Ok (player_4 g)
      else Raise AttributeError
  end.

(** The game after a mutation of the player object [p] and of the deck. *)
Definition update (g : West) (deck' : list Card) (p : Player CardRef) : West :=
  let put q := if Nat.eqb (name q) (name p) then p else q in
  mkWest deck'
    (put (player_1 g)) (put (player_2 g)) (put (player_3 g)) (put (player_4 g))
    (t1_points g) (t2_points g).

(** One line typed by the human player, after [split] and [West.trans]:
    [None] when either raises. *)
Definition Line : Type := option (Rank * Suit).

Definition Rank_eqb (a b : Rank) : bool :=
  if Rank_eq_dec a b then true else false.

(** [Player.get_card] on references. *)
Definition get_card (deck : list Card) (self : Player CardRef)
  (r : Rank) (s : Suit) : option CardRef :=
  find (fun c => Rank_eqb (rank (deref deck c)) r
                 && Suit_eqb (suit (deref deck c)) s)
       (cards self).

(** [list.remove] on references. *)
Fixpoint remove_ref (x : CardRef) (l : list CardRef) : list CardRef :=
  match l with
  | [] => []
  | y :: l' => if Nat.eqb x y then l' else y :: remove_ref x l'
  end.

(** [Player.player_select]: lines are read until one names a card of the
    hand.  [Raise NoInput] is not an exception of the program: at the end
    of the input [input] raises, the handler of line 195 catches it and
    the loop asks again for ever, so that [player_select] never
    returns. *)
Fixpoint player_select (deck : list Card) (self : Player CardRef)
  (input : list Line) : Result (CardRef * Player CardRef * list Line) :=
  match input with
  | [] => Raise NoInput
  | None :: input' => player_select deck self input'
  | Some (r, s) :: input' =>
      match get_card deck self r s with
      | Some played_card =>
          Ok (played_card,
              with_cards self (remove_ref played_card (cards self)),
              input')
      | None => player_select deck self input'
      end
  end.

(** [Player.ai_select] on references: the hand and the table are read
    through the deck, and the card object chosen is the one of the hand
    that carries the chosen value. *)
Definition ai_select_ref (deck : list Card) (self : Player CardRef)
  (table : list CardRef) : Result (CardRef * Player CardRef) :=
  '(card, _) <- ai_select (view deck self) (map (deref deck) table) ;;
  match find (fun c => if Card_eq_dec (deref deck c) card then true else false)
             (cards self) with
  | Some c => Ok (c, with_cards self (remove_ref c (cards self)))
  | None => Raise ValueError
  end.

(** [West.player_turn]: the game, the table and the unread input after
    the turn. *)
Definition player_turn (g : West) (player : option PlayerId)
  (table : list CardRef) (ai : bool) (input : list Line)
  : Result (West * list CardRef * list Line) :=
  p <- get_player g player ;;
  if negb ai then
    if Nat.eqb (length (cards p)) 13 then
      '(played_card, p', input') <- player_select (deck g) p input ;;
      let deck' := set_ato (suit (deref (deck g) played_card)) (deck g) in
      Ok (update g deck' p', table ++ [played_card], input')
    else
      '(played_card, p', input') <- player_select (deck g) p input ;;
      Ok (update g (deck g) p', table ++ [played_card], input')
  else
    '(played_card, p') <- ai_select_ref (deck g) p table ;;
    Ok (update g (deck g) p', table ++ [played_card], input).

(** Line 383: [player_turn] for every entry of the rotated list, in order. *)
Fixpoint player_turns (g : West) (ps : list (option PlayerId * bool))
  (table : list CardRef) (input : list Line)
  : Result (West * list CardRef * list Line) :=
  match ps with
  | [] => Ok (g, table, input)
  | (player, ai) :: ps' =>
      '(g', table', input') <- player_turn g player table ai input ;;
      player_turns g' ps' table' input'
  end.

(** Lines 375-389: one round, from the empty table to the score. *)
Definition play_round (g : West) (t_win : option PlayerId)
  (input : list Line) : Result (West * option PlayerId * list Line) :=
  let table := [] in
  let w := (Some (name (player_1 g)), false) in
  let x := (Some (name (player_2 g)), true) in
  let y := (teammate (player_1 g), true) in
  let z := (teammate (player_2 g), true) in
  let players := [w; x; y; z] in
  winner <- get_player g t_win ;;
  let turns := turn winner in
  '(g', table', input') <-
     player_turns g (skipn turns players ++ firstn turns players) table input ;;
  t_win' <- winner_team (map (deref (deck g')) table') ;;
  if same_player t_win' (Some (name (player_1 g')))
     || same_player t_win' (teammate (player_1 g'))
  then
    Ok (mkWest (deck g') (player_1 g') (player_2 g') (player_3 g')
          (player_4 g') (t1_points g' + 1) (t2_points g'),
        t_win', input')
  else
    Ok (mkWest (deck g') (player_1 g') (player_2 g') (player_3 g')
          (player_4 g') (t1_points g') (t2_points g' + 1),
        t_win', input').

(** What the match prints when it ends (lines 368-373). *)
Inductive Verdict : Type := FirstTeamWon | SecondTeamWon | TIE.

Definition verdict (t1_points t2_points : Z) : Verdict :=
  if t1_points >? t2_points then FirstTeamWon
  else if t2_points >? t2_points then SecondTeamWon
  else TIE.

(** The output of [start]: the score board printed after each round, in
    order, and the final verdict. *)
Record Output : Type := mkOutput {
  boards : list (Z * Z);
  final  : Verdict
}.

(** The loop of [West.start]; [fuel] bounds the number of iterations and
    [None] means it was too small. *)
Fixpoint start_loop (fuel : nat) (g : West) (t_win : option PlayerId)
  (game_r : Z) (input : list Line) (printed : list (Z * Z))
  : option (Result (West * Output)) :=
  match fuel with
  | O => None
  | S fuel' =>
      if game_r =? 14 then
        Some (Ok (g, mkOutput printed (verdict (t1_points g) (t2_points g))))
      else
        match play_round g t_win input with
        | Raise e => Some (Raise e)
        | Ok (g', t_win', input') =>
            start_loop fuel' g' t_win' (game_r + 1) input'
              (printed ++ [(t1_points g', t2_points g')])
        end
  end.

(** [West.start] *)
Definition start (fuel : nat) (g : West) (input : list Line)
  : option (Result (West * Output)) :=
  start_loop fuel g (Some (name (player_1 g))) 1 input [].

(** ** Vocabulary of the specification *)

(** The replacement rule of the trick resolver in the words of the
    specification: the card replaces the winner when (a) its order is
    strictly greater and it shares the winner's suit, or (b) it is a trump
    and the winner is not a trump of higher or equal order. *)
Definition replaces (winner card : Card) : bool :=
  (order card >? order winner) && Suit_eqb (suit card) (suit winner)
  || ato card && negb (ato winner && (order winner >=? order card)).

(** The winner initialised to the first card and replaced by each
    subsequent card that [replaces] it. *)
Definition resolve (first : Card) (subsequent : list Card) : Card :=
  fold_left (fun winner card => if replaces winner card then card else winner)
            subsequent first.

(** All trump-flagged cards of the table share one suit. *)
Definition suit_consistent (table : list Card) : Prop :=
  forall c c', In c table -> In c' table ->
               ato c = true -> ato c' = true -> suit c = suit c'.

(** The trump flag is a function of the suit: this is what [set_ato]
    leaves behind, flagging a whole suit at once. *)
Definition trump_by_suit (table : list Card) : Prop :=
  forall c c', In c table -> In c' table ->
               suit c = suit c' -> ato c = ato c'.

(** A card in play: rank, suit, the name of its owner, trump flag. *)
Definition card_of (r : Rank) (s : Suit) (o : PlayerId) (t : bool) : Card :=
  mkCard r s (Some o) t.

Arguments card_of r s o%_nat t.

(** The table of the first end-to-end scenario of the specification:
    2 and K of hearts, the ace of diamonds flagged trump, 5 of hearts. *)
Definition table_trump_ace : list Card :=
  [card_of (Num 2) HEARTS 1 false; card_of K HEARTS 2 false;
   card_of A DIAMONDS 3 true; card_of (Num 5) HEARTS 4 false]%nat.

(** A table no match produces: its only trump-flagged card is the 3 of
    spades, followed by an unflagged 5 of spades. *)
Definition table_half_flagged : list Card :=
  [card_of (Num 2) HEARTS 1 false; card_of (Num 3) SPADES 2 true;
   card_of (Num 5) SPADES 3 false]%nat.

(** The number of cards the hand holds in the suit of [c]:
    [len(self.get_suit(c.suit))]. *)
Definition suit_count (self : Player Card) (c : Card) : nat :=
  length (get_suit self (suit c)).

(** The test under which the loop over the hand breaks at a card
    (lines 262-269): the card is a trump, the current winner is not the
    teammate's, and the card differs in suit from the winner or strictly
    exceeds its order. *)
Definition overtakes (self : Player Card) (winning_card c : Card) : bool :=
  ato c && not_teammates self winning_card
  && (if Suit_eqb (suit c) (suit winning_card)
      then order c >? order winning_card
      else true).

(** [c] is strictly worse a discard than [best]: higher in order, or
    equal in order and from a strictly shorter suit of the hand. *)
Definition worse (self : Player Card) (best c : Card) : Prop :=
  order best < order c
  \/ (order c = order best /\ (suit_count self c < suit_count self best)%nat).

(** The ranks [get_deck] deals. *)
Definition dealt_rank (r : Rank) : Prop :=
  match r with
  | Num n => 2 <= n <= 10
  | _ => True
  end.

(** The hand of the last end-to-end scenario of the specification, held
    by player 2, and the table it answers: the 6 of spades led by
    player 1. *)
Definition spade_holder : Player Card :=
  mkPlayer 2 1
    [card_of (Num 3) SPADES 2 false; card_of (Num 9) SPADES 2 false;
     card_of J CLUBS 2 false]
    (Some 4%nat).

Definition six_led : list Card := [card_of (Num 6) SPADES 1 false].

(** A hand with two spades below the 6. *)
Definition low_spades : Player Card :=
  mkPlayer 2 1
    [card_of (Num 3) SPADES 2 false; card_of (Num 5) SPADES 2 false]
    (Some 4%nat).

(** Player 3 holds the 7 of spades as its only spade; player 1 led the
    5 of spades and player 2 trumped it with the 7 of hearts. *)
Definition lone_seven : Player Card :=
  mkPlayer 3 2
    [card_of (Num 7) SPADES 3 false; card_of (Num 4) CLUBS 3 false]
    (Some 1%nat).

Definition trumped_five : list Card :=
  [card_of (Num 5) SPADES 1 false; card_of (Num 7) HEARTS 2 true].

(** Player 2 is out of spades and holds a low trump; player 4 led the
    4 of spades and player 1 trumped it with the 9 of hearts. *)
Definition low_trump : Player Card :=
  mkPlayer 2 1
    [card_of (Num 3) HEARTS 2 true; card_of (Num 2) CLUBS 2 false]
    (Some 4%nat).

Definition trumped_four : list Card :=
  [card_of (Num 4) SPADES 4 false; card_of (Num 9) HEARTS 1 true].

(** Two hands that differ by the exchange of hearts and spades. *)
Definition spade_heart : Player Card :=
  mkPlayer 2 1
    [card_of (Num 2) SPADES 2 false; card_of (Num 3) HEARTS 2 false]
    (Some 4%nat).

Definition heart_spade : Player Card :=
  mkPlayer 2 1
    [card_of (Num 2) HEARTS 2 false; card_of (Num 3) SPADES 2 false]
    (Some 4%nat).

(** Ascending: every card is at most the cards after it. *)
Inductive ascending : list Card -> Prop :=
| ascending_nil : ascending []
| ascending_cons c l :
    (forall x, In x l -> order c <= order x) -> ascending l ->
    ascending (c :: l).

(** [best] is at least as good a discard as [c]: lower in order, or equal
    in order and from a suit of the hand at least as long. *)
Definition preferred (self : Player Card) (best c : Card) : Prop :=
  order best < order c
  \/ (order c = order best /\ (suit_count self c <= suit_count self best)%nat).

(** The discard of [ai_select] from [hand] against the winner [w]: [c] is
    the first card of the hand that [overtakes]; or no card of the hand
    does, and [c] is preferred to every card of the hand and is the last
    such in hand order. *)
Definition discards (self : Player Card) (w : Card) (hand : list Card)
  (c : Card) : Prop :=
  (exists l1 l2,
      hand = l1 ++ c :: l2 /\ overtakes self w c = true
      /\ Forall (fun x => overtakes self w x = false) l1)
  \/ (Forall (fun x => overtakes self w x = false) hand
      /\ (forall x, In x hand -> preferred self c x)
      /\ exists l1 l2, hand = l1 ++ c :: l2 /\ Forall (worse self c) l2).

(** Exactly one of the two counters went up, by exactly one. *)
Definition one_point (before after : Z * Z) : Prop :=
  (fst after = fst before + 1 /\ snd after = snd before)
  \/ (fst after = fst before /\ snd after = snd before + 1).

(** Every board of the list is one point away from the board before it. *)
Fixpoint score_chain (before : Z * Z) (printed : list (Z * Z)) : Prop :=
  match printed with
  | [] => True
  | board :: printed' => one_point before board /\ score_chain board printed'
  end.

(** The operations of a match on the game: a turn of a player, where
    only [player_1] is ever asked for input (entry [w] of line 376), and
    the update of a score. *)
Inductive step : West -> West -> Prop :=
| step_turn g player table ai input g' table' input' :
    (ai = false -> player = Some (name (player_1 g))) ->
    player_turn g player table ai input = Ok (g', table', input') ->
    step g g'
| step_score g t1 t2 :
    step g (mkWest (deck g) (player_1 g) (player_2 g) (player_3 g)
              (player_4 g) t1 t2).

Inductive reachable (g : West) : West -> Prop :=
| reachable_refl : reachable g g
| reachable_step g' g'' : reachable g g' -> step g' g'' -> reachable g g''.

(** [l'] is a rearrangement of [l]: every card of [l] can be removed in
    turn from [l'], which leaves nothing. *)
Fixpoint rearranged (l l' : list Card) : bool :=
  match l with
  | [] => match l' with [] => true | _ :: _ => false end
  | x :: l =>
      match remove_card x l' with
      | Ok l'' => rearranged l l''
      | Raise _ => false
      end
  end.

(** A shuffle: every third card of the fresh deck, cyclically. *)
Definition deck_by_threes : list Card :=
  map (fun i => nth ((i * 3) mod 52) fresh_deck (mkCard (Num 0) HEARTS None false))
      (seq 0 52).

(** A human who names the cards of the pack in the order of [get_deck],
    again and again, until one of them is in hand. *)
Definition pack_lines : list Line :=
  flat_map (fun s => map (fun r => Some (r, s)) ranks) suits.

Definition patient_lines : list Line := concat (repeat pack_lines 13).

(** Entries of the list of line 380: only [player_1] plays by hand. *)
Definition by_hand_is_first (g : West) (entry : option PlayerId * bool)
  : Prop :=
  snd entry = false -> fst entry = Some (name (player_1 g)).

(** Another shuffle: every twenty-third card of the fresh deck, from the
    twentieth on, cyclically. *)
Definition deck_by_23s : list Card :=
  map (fun i => nth ((i * 23 + 19) mod 52) fresh_deck
                    (mkCard (Num 0) HEARTS None false))
      (seq 0 52).

(** The hand of the player named [k]. *)
Definition hand (g : West) (k : PlayerId) : list CardRef :=
  match get_player g (Some k) with
  | Ok p => cards p
  | Raise _ => []
  end.

(** The four players as [prepare_cards] names, seats and pairs them. *)
Definition dealt_players (g : West) : Prop :=
  (name (player_1 g), name (player_2 g), name (player_3 g),
   name (player_4 g)) = (1, 2, 3, 4)%nat
  /\ (turn (player_1 g), turn (player_2 g), turn (player_3 g),
      turn (player_4 g)) = (0, 1, 2, 3)%nat
  /\ (teammate (player_1 g), teammate (player_2 g), teammate (player_3 g),
      teammate (player_4 g)) = (Some 3, Some 4, Some 1, Some 2)%nat.

(** Every card in a hand carries the name of the player that holds it. *)
Definition owned_hands (g : West) : Prop :=
  forall k r, In r (hand g k) -> owner (deref (deck g) r) = Some k.

(** The names of the players in the order of play of a round whose
    leader sits at [turns]. *)
Definition seats_from (turns : nat) : list PlayerId :=
  skipn turns [1; 2; 3; 4]%nat ++ firstn turns [1; 2; 3; 4]%nat.

(** The entries of [player_turn] for the players named [ks]: player 1
    plays by hand, the others are automated. *)
Definition turns_of (ks : list PlayerId) : list (option PlayerId * bool) :=
  map (fun k => (Some k, negb (Nat.eqb k 1))) ks.

(** The exceptions a match can end on: the fault of [ai_select] and the
    end of the input. *)
Definition fault_or_input (e : Exn) : Prop := e = ValueError \/ e = NoInput.

Definition RankSuit_eq_dec (a b : Rank * Suit) : {a = b} + {a <> b}.
Proof. decide equality; [apply Suit_eq_dec|apply Rank_eq_dec]. Defined.

(** A line that [player_select] answers by asking again: it does not
    parse, or it names no card of the hand. *)
Definition rejected (deck : list Card) (self : Player CardRef) (line : Line)
  : Prop :=
  match line with
  | None => True
  | Some (r, s) => get_card deck self r s = None
  end.

(** Lines 385-389 of a round: the winner of the table and the point. *)
Definition settle (g' : West) (table' : list CardRef) (input' : list Line)
  : Result (West * option PlayerId * list Line) :=
  t_win' <- winner_team (map (deref (deck g')) table') ;;
  if same_player t_win' (Some (name (player_1 g')))
     || same_player t_win' (teammate (player_1 g'))
  then
    Ok (mkWest (deck g') (player_1 g') (player_2 g') (player_3 g')
          (player_4 g') (t1_points g' + 1) (t2_points g'),
        t_win', input')
  else
    Ok (mkWest (deck g') (player_1 g') (player_2 g') (player_3 g')
          (player_4 g') (t1_points g') (t2_points g' + 1),
        t_win', input').

(** [display_cards]: the list handed to [join_cards] for printing.  The
    cards are gathered by suit in a dictionary, in the order met, each
    suit is sorted by order, and the suits are laid out hearts, spades,
    diamonds, clubs, a suit without cards giving the empty list. *)
Definition display_cards (cards_join : list Card) : list Card :=
  let sorted_cards key :=
    sort_by_order (filter (fun card => Suit_eqb (suit card) key) cards_join) in
  sorted_cards HEARTS ++ sorted_cards SPADES ++ sorted_cards DIAMONDS
  ++ sorted_cards CLUBS.

(** The place of a suit on the screen. *)
Definition display_rank (s : Suit) : Z :=
  match s with
  | HEARTS => 0
  | SPADES => 1
  | DIAMONDS => 2
  | CLUBS => 3
  end.

(** [a] may be printed before [b]: its suit comes first, or the suits
    are the same and its order is not above. *)
Definition displayed_before (a b : Card) : Prop :=
  display_rank (suit a) < display_rank (suit b)
  \/ (suit a = suit b /\ order a <= order b).

(** * Properties *)

(** ** The trick resolver *)

Lemma Suit_eqb_eq (a b : Suit) : Suit_eqb a b = true <-> a = b.
Proof. destruct a, b; simpl; split; congruence. Qed.

Lemma Suit_eqb_refl (a : Suit) : Suit_eqb a a = true.
Proof. now apply Suit_eqb_eq. Qed.

Lemma Suit_eqb_neq (a b : Suit) : Suit_eqb a b = false <-> a <> b.
Proof. destruct a, b; simpl; split; congruence. Qed.

(** The loop body is the replacement rule of the specification. *)
Lemma challenge_replaces (w c : Card) :
  challenge w c = if replaces w c then c else w.
Proof.
  unfold challenge, replaces.
  destruct (order c >? order w) eqn:Hgt;
    destruct (Suit_eqb (suit c) (suit w)), (ato c), (ato w); simpl;
    try reflexivity.
  all: destruct (order w >=? order c) eqn:Hge; simpl; try reflexivity.
  all: rewrite ?Z.gtb_lt, ?Z.geb_le, ?Z.gtb_ltb, ?Z.geb_leb,
         ?Z.ltb_lt, ?Z.ltb_ge, ?Z.leb_le, ?Z.leb_gt in *; lia.
Qed.

(** A card never replaces itself: the first iteration of the loop, on
    [table[0]] against itself, leaves the winner unchanged. *)
Lemma challenge_self (c : Card) : challenge c c = c.
Proof.
  unfold challenge. destruct (order c >? order c) eqn:H.
  - rewrite Z.gtb_gt in H. lia.
  - simpl. destruct (ato c); reflexivity.
Qed.

Lemma challenge_cases (w c : Card) : challenge w c = c \/ challenge w c = w.
Proof. rewrite challenge_replaces. destruct (replaces w c); auto. Qed.

Lemma fold_challenge_resolve (l : list Card) (w : Card) :
  fold_left challenge l w = resolve w l.
Proof.
  unfold resolve. revert w.
  induction l as [|c l IH]; intro w; simpl; [reflexivity|].
  now rewrite IH, challenge_replaces.
Qed.

Lemma winner_card_resolve (first : Card) (rest : list Card) :
  winner_card (first :: rest) = Ok (resolve first rest).
Proof.
  unfold winner_card. simpl. now rewrite challenge_self, fold_challenge_resolve.
Qed.

(** The winner of a fold is the initial winner or one of the cards. *)
Lemma fold_challenge_In (l : list Card) (w : Card) :
  fold_left challenge l w = w \/ In (fold_left challenge l w) l.
Proof.
  revert w. induction l as [|c l IH]; intro w; simpl; [now left|].
  destruct (IH (challenge w c)) as [H|H]; [|now right; right].
  rewrite H. destruct (challenge_cases w c) as [E|E]; rewrite E; auto.
Qed.

(** C1: on every table of four cards [winner_card] starts from the first
    card and lets each subsequent card, in play order, replace the winner
    exactly when the specification's rule [replaces] holds; so a trump
    replaces any non-trump winner (and, trump flags following suits, a
    non-trump never replaces a trump), and between two trumps, as between
    two non-trump cards of one suit, the challenger replaces the winner
    exactly when its order is strictly higher. *)
Theorem winner_card_rule (c1 c2 c3 c4 : Card) :
  winner_card [c1; c2; c3; c4] = Ok (resolve c1 [c2; c3; c4])
  /\ (forall w c, challenge w c = c <-> (replaces w c = true \/ c = w))
  /\ (forall w c, ato c = true -> ato w = false -> challenge w c = c)
  /\ (forall w c, ato c = false -> ato w = true ->
                  (suit c = suit w -> ato c = ato w) -> challenge w c = w)
  /\ (forall w c, ato c = true -> ato w = true ->
                  challenge w c = if order c >? order w then c else w)
  /\ (forall w c, suit c = suit w -> ato c = false -> ato w = false ->
                  challenge w c = if order c >? order w then c else w).
Proof.
  split; [apply winner_card_resolve|].
  split; [|split; [|split; [|split]]].
  - intros w c. rewrite challenge_replaces.
    destruct (replaces w c); split; auto.
    + intros [H|H]; congruence.
  - intros w c Hc Hw. unfold challenge. rewrite Hc, Hw.
    destruct (_ && _); reflexivity.
  - intros w c Hc Hw Hs. unfold challenge. rewrite Hc.
    destruct (order c >? order w); simpl; [|reflexivity].
    destruct (Suit_eqb (suit c) (suit w)) eqn:E; [|reflexivity].
    apply Suit_eqb_eq in E. apply Hs in E. congruence.
  - intros w c Hc Hw. unfold challenge. rewrite Hc, Hw.
    destruct (order c >? order w); simpl; [|reflexivity].
    destruct (Suit_eqb _ _); reflexivity.
  - intros w c Hs Hc Hw. unfold challenge. rewrite Hc, Hs, Suit_eqb_refl.
    destruct (order c >? order w); reflexivity.
Qed.

(** C10: on a non-empty table [winner_card] returns one of the cards of
    the table, and [winner_team] returns the owner recorded on that
    card. *)
Theorem winner_card_in_table (table : list Card) :
  table <> [] ->
  exists w, winner_card table = Ok w /\ In w table
            /\ winner_team table = Ok (owner w).
Proof.
  destruct table as [|first rest]; [congruence|]. intros _.
  exists (fold_left challenge (first :: rest) first).
  split; [reflexivity|]. split; [|reflexivity].
  destruct (fold_challenge_In (first :: rest) first) as [H|H]; [|exact H].
  rewrite H. now left.
Qed.

Lemma winner_card_in_table_witness :
  exists w, winner_card table_trump_ace = Ok w /\ In w table_trump_ace
            /\ winner_team table_trump_ace = Ok (owner w).
Proof. apply winner_card_in_table. discriminate. Defined.

(** The two end-to-end scenarios of the specification. *)
Example winner_trump_ace :
  winner_card table_trump_ace = Ok (card_of A DIAMONDS 3 true).
Proof. reflexivity. Qed.

Example winner_highest_of_lead :
  winner_card [card_of (Num 2) HEARTS 1 false; card_of (Num 7) HEARTS 2 false;
               card_of K HEARTS 3 false; card_of (Num 9) HEARTS 4 false]%nat
  = Ok (card_of K HEARTS 3 false).
Proof. reflexivity. Qed.

(** Whatever the flags, the winner is of the lead suit or of the suit of
    a trump-flagged card seen so far. *)
Lemma fold_challenge_suit (lead : Suit) (l seen : list Card) (w : Card) :
  suit w = lead \/ (exists c, In c seen /\ ato c = true /\ suit c = suit w) ->
  suit (fold_left challenge l w) = lead
  \/ exists c, In c (seen ++ l) /\ ato c = true
               /\ suit c = suit (fold_left challenge l w).
Proof.
  revert seen w. induction l as [|c l IH]; intros seen w Hw; simpl.
  - rewrite app_nil_r. exact Hw.
  - replace (seen ++ c :: l) with ((seen ++ [c]) ++ l)
      by now rewrite <- app_assoc.
    apply IH. rewrite challenge_replaces.
    destruct (replaces w c) eqn:R.
    + unfold replaces in R. apply orb_true_iff in R as [R|R].
      * apply andb_true_iff in R as [_ R]. apply Suit_eqb_eq in R.
        destruct Hw as [Hw|(x & Hx & Hax & Hsx)]; [left; congruence|].
        right. exists x. rewrite in_app_iff. intuition congruence.
      * apply andb_true_iff in R as [R _].
        right. exists c. rewrite in_app_iff. simpl. auto.
    + destruct Hw as [Hw|(x & Hx & Hax & Hsx)]; [now left|].
      right. exists x. rewrite in_app_iff. auto.
Qed.

(** When the flag follows the suit, the winner is of the lead suit or
    flagged. *)
Lemma fold_challenge_flag (lead : Suit) (table l : list Card) (w : Card) :
  trump_by_suit table -> incl l table -> In w table ->
  suit w = lead \/ ato w = true ->
  suit (fold_left challenge l w) = lead
  \/ ato (fold_left challenge l w) = true.
Proof.
  intros Ht. revert w. induction l as [|c l IH]; intros w Hl Hin Hw; simpl.
  - exact Hw.
  - assert (Hc : In c table) by (apply Hl; now left).
    apply IH; [intros x Hx; apply Hl; now right| |].
    + destruct (challenge_cases w c) as [E|E]; now rewrite E.
    + rewrite challenge_replaces. destruct (replaces w c) eqn:R; [|exact Hw].
      unfold replaces in R. apply orb_true_iff in R as [R|R].
      * apply andb_true_iff in R as [_ R]. apply Suit_eqb_eq in R.
        destruct Hw as [Hw|Hw]; [left; congruence|].
        right. rewrite (Ht c w Hc Hin R). exact Hw.
      * apply andb_true_iff in R as [R _]. now right.
Qed.

(** C6: on a non-empty table whose trump-flagged cards share one suit,
    the card [winner_card] returns shares the suit of the first card or
    the suit of the trump-flagged cards, never a third suit; and where
    the flag follows the suit (every card of the suit of a flagged card
    is flagged), as [set_ato] leaves every table in play, it shares the
    suit of the first card or is itself flagged trump. *)
Theorem winner_card_lead_or_trump (first : Card) (rest : list Card) (w : Card) :
  suit_consistent (first :: rest) ->
  winner_card (first :: rest) = Ok w ->
  (suit w = suit first
   \/ (exists c, In c (first :: rest) /\ ato c = true)
      /\ forall c, In c (first :: rest) -> ato c = true -> suit c = suit w)
  /\ (trump_by_suit (first :: rest) -> suit w = suit first \/ ato w = true).
Proof.
  intros Hsc Hw. unfold winner_card in Hw.
  assert (E : fold_left challenge (first :: rest) first = w) by congruence.
  clear Hw. split.
  - destruct (fold_challenge_suit (suit first) (first :: rest) [] first)
      as [H|(x & Hx & Hax & Hsx)]; [now left| |].
    + left. now rewrite <- E.
    + right. rewrite app_nil_l in Hx. rewrite E in Hsx.
      split; [now exists x|].
      intros c Hc Hac. rewrite <- Hsx. now apply Hsc.
  - intros Ht. rewrite <- E.
    apply (fold_challenge_flag (suit first) (first :: rest));
      auto using incl_refl, in_eq.
Qed.

Lemma suit_consistent_trump_ace : suit_consistent table_trump_ace.
Proof.
  intros c c' Hc Hc' Ha Ha'. simpl in Hc, Hc'.
  repeat (destruct Hc as [<-|Hc]; try discriminate Ha); try contradiction.
  repeat (destruct Hc' as [<-|Hc']; try discriminate Ha'); try contradiction.
  reflexivity.
Qed.

Lemma trump_by_suit_trump_ace : trump_by_suit table_trump_ace.
Proof.
  intros c c' Hc Hc' Hs. simpl in Hc, Hc'.
  repeat (destruct Hc as [<-|Hc]); try contradiction;
    repeat (destruct Hc' as [<-|Hc']); try contradiction;
    try reflexivity; discriminate Hs.
Qed.

Lemma winner_card_lead_or_trump_witness :
  suit (card_of A DIAMONDS 3 true) = HEARTS
  \/ ato (card_of A DIAMONDS 3 true) = true.
Proof.
  exact (proj2 (winner_card_lead_or_trump _ _ _ suit_consistent_trump_ace
                  eq_refl)
               trump_by_suit_trump_ace).
Defined.

(** Off the game: on a table where only part of a suit is flagged,
    which [set_ato] never leaves, the winner can be an unflagged card;
    it is then of the suit of the trump-flagged cards. *)
Example winner_card_half_flagged :
  exists w, suit_consistent table_half_flagged
            /\ winner_card table_half_flagged = Ok w
            /\ suit w <> suit (card_of (Num 2) HEARTS 1 false)
            /\ ato w = false.
Proof.
  exists (card_of (Num 5) SPADES 3 false).
  split; [|split; [reflexivity|split; [discriminate|reflexivity]]].
  intros c c' Hc Hc' Ha Ha'. simpl in Hc, Hc'.
  repeat (destruct Hc as [<-|Hc]; try discriminate Ha); try contradiction.
  repeat (destruct Hc' as [<-|Hc']; try discriminate Ha'); try contradiction.
  reflexivity.
Qed.

(** ** Hand queries *)

Section HandQueries.

Variable self : Player Card.

Lemma insert_by_order_In (c x : Card) (l : list Card) :
  In x (insert_by_order c l) <-> x = c \/ In x l.
Proof.
  induction l as [|y l IH]; simpl.
  - intuition.
  - destruct (order c <=? order y); simpl; rewrite ?IH; intuition.
Qed.

Lemma sort_by_order_In (x : Card) (l : list Card) :
  In x (sort_by_order l) <-> In x l.
Proof.
  induction l as [|y l IH]; simpl; [reflexivity|].
  rewrite insert_by_order_In, IH. intuition.
Qed.

Lemma get_suit_In (s : Suit) (x : Card) :
  In x (get_suit self s) <-> In x (cards self) /\ suit x = s.
Proof.
  unfold get_suit. rewrite sort_by_order_In, filter_In, Suit_eqb_eq.
  reflexivity.
Qed.

Lemma insert_by_order_ascending (c : Card) (l : list Card) :
  ascending l -> ascending (insert_by_order c l).
Proof.
  induction 1 as [|y l Hy Hl IH]; simpl.
  - constructor; [intros x []|constructor].
  - destruct (order c <=? order y) eqn:E.
    + apply Z.leb_le in E. constructor; [|now constructor].
      intros x [<-|Hx]; [exact E|]. specialize (Hy x Hx). lia.
    + apply Z.leb_gt in E. constructor; [|exact IH].
      intros x Hx. apply insert_by_order_In in Hx as [->|Hx]; [lia|auto].
Qed.

Lemma sort_by_order_ascending (l : list Card) : ascending (sort_by_order l).
Proof.
  induction l; simpl; [constructor|now apply insert_by_order_ascending].
Qed.

Lemma get_suit_ascending (s : Suit) : ascending (get_suit self s).
Proof. apply sort_by_order_ascending. Qed.

Lemma has_In (s : Suit) :
  has self s = true <-> exists c, In c (cards self) /\ suit c = s.
Proof.
  unfold has. rewrite existsb_exists.
  split; intros (c & Hc & E); exists c; split; auto; now apply Suit_eqb_eq.
Qed.

(** The first card above a bound in an ascending list is the least
    card above it. *)
Lemma find_above_least (k : Z) (l : list Card) (g : Card) :
  ascending l -> find (fun c => order c >? k) l = Some g ->
  forall c, In c l -> k < order c -> order g <= order c.
Proof.
  induction 1 as [|y l Hy Hl IH]; simpl; [discriminate|].
  destruct (order y >? k) eqn:E.
  - intros [= <-] c [<-|Hc] _; [lia|auto].
  - rewrite Z.gtb_ltb, Z.ltb_ge in E.
    intros Hg c [<-|Hc] Hk; [lia|auto].
Qed.

(** The first card below a bound in an ascending list is its head: the
    least card of the whole list. *)
Lemma find_below_least (k : Z) (l : list Card) (m : Card) :
  ascending l -> find (fun c => order c <? k) l = Some m ->
  forall c, In c l -> order m <= order c.
Proof.
  induction 1 as [|y l Hy Hl IH]; simpl; [discriminate|].
  destruct (order y <? k) eqn:E.
  - intros [= <-] c [<-|Hc]; [lia|auto].
  - apply Z.ltb_ge in E. intros Hm.
    apply find_some in Hm as [Hm Hlt]. apply Z.ltb_lt in Hlt.
    specialize (Hy m Hm). lia.
Qed.

Variables (s : Suit) (w : Card).

Lemma gr_card_Some (g : Card) :
  gr_card self s w = Some g ->
  In g (cards self) /\ suit g = s /\ order w < order g
  /\ forall c, In c (cards self) -> suit c = s -> order w < order c ->
               order g <= order c.
Proof.
  unfold gr_card. intros H.
  pose proof (find_some _ _ H) as [Hin Hgt].
  apply get_suit_In in Hin as [Hin Hs]. apply Z.gtb_gt in Hgt.
  repeat split; auto; [lia|].
  intros c Hc Hcs Hlt.
  apply (find_above_least _ _ _ (get_suit_ascending s) H); auto.
  now apply get_suit_In.
Qed.

Lemma gr_card_None :
  gr_card self s w = None <->
  forall c, In c (cards self) -> suit c = s -> order c <= order w.
Proof.
  unfold gr_card. split.
  - intros H c Hc Hs.
    assert (Hin : In c (get_suit self s)) by now apply get_suit_In.
    apply (find_none _ _ H) in Hin. rewrite Z.gtb_ltb, Z.ltb_ge in Hin.
    exact Hin.
  - intros H. destruct (find _ _) as [g|] eqn:E; [|reflexivity].
    apply find_some in E as [Hin Hgt]. apply get_suit_In in Hin as [Hin Hs].
    apply Z.gtb_gt in Hgt. specialize (H g Hin Hs). lia.
Qed.

Lemma sm_card_Some (m : Card) :
  sm_card self s w = Some m ->
  In m (cards self) /\ suit m = s /\ order m < order w
  /\ forall c, In c (cards self) -> suit c = s -> order m <= order c.
Proof.
  unfold sm_card. intros H.
  pose proof (find_some _ _ H) as [Hin Hlt].
  apply get_suit_In in Hin as [Hin Hs]. apply Z.ltb_lt in Hlt.
  repeat split; auto.
  intros c Hc Hcs.
  apply (find_below_least _ _ _ (get_suit_ascending s) H).
  now apply get_suit_In.
Qed.

Lemma sm_card_None :
  sm_card self s w = None <->
  forall c, In c (cards self) -> suit c = s -> order w <= order c.
Proof.
  unfold sm_card. split.
  - intros H c Hc Hs.
    assert (Hin : In c (get_suit self s)) by now apply get_suit_In.
    apply (find_none _ _ H) in Hin. now apply Z.ltb_ge in Hin.
  - intros H. destruct (find _ _) as [m|] eqn:E; [|reflexivity].
    apply find_some in E as [Hin Hlt]. apply get_suit_In in Hin as [Hin Hs].
    apply Z.ltb_lt in Hlt. specialize (H m Hin Hs). lia.
Qed.

End HandQueries.

(** ** The automated player follows suit *)

Lemma has_cards_nonempty (self : Player Card) (s : Suit) :
  has self s = true -> cards self <> [].
Proof. unfold has. destruct (cards self); [discriminate|congruence]. Qed.

Lemma ai_select_follow (self : Player Card) (table : list Card) :
  has self (lead_suit self table) = true ->
  ai_select self table
  = follow_suit self (lead_suit self table) (current_winner self table).
Proof.
  intros H. unfold ai_select. rewrite H.
  apply has_cards_nonempty in H. destruct (cards self); congruence.
Qed.

(** C2, as amended: when the player holds the lead suit, [gr_card] is
    the smallest card of that suit in hand strictly greater in order than
    the current winner (none when no card of the suit exceeds it), and
    [sm_card] is the smallest card of that suit in hand, provided its
    order is strictly smaller than the current winner's (none when no
    card of the suit is below the winner); for the hand 3 and 9 of spades
    and jack of clubs, spades led and a winner of order 6, [gr_card] is
    the 9 of spades and [sm_card] the 3 of spades. *)
Theorem gr_sm_card_spec (self : Player Card) (table : list Card) :
  has self (lead_suit self table) = true ->
  ai_select self table
  = follow_suit self (lead_suit self table) (current_winner self table)
  /\ (forall g,
        gr_card self (lead_suit self table) (current_winner self table) = Some g ->
        In g (cards self) /\ suit g = lead_suit self table
        /\ order (current_winner self table) < order g
        /\ forall c, In c (cards self) -> suit c = lead_suit self table ->
                     order (current_winner self table) < order c ->
                     order g <= order c)
  /\ (gr_card self (lead_suit self table) (current_winner self table) = None
      <-> forall c, In c (cards self) -> suit c = lead_suit self table ->
                    order c <= order (current_winner self table))
  /\ (forall m,
        sm_card self (lead_suit self table) (current_winner self table) = Some m ->
        In m (cards self) /\ suit m = lead_suit self table
        /\ order m < order (current_winner self table)
        /\ forall c, In c (cards self) -> suit c = lead_suit self table ->
                     order m <= order c)
  /\ (sm_card self (lead_suit self table) (current_winner self table) = None
      <-> forall c, In c (cards self) -> suit c = lead_suit self table ->
                    order (current_winner self table) <= order c)
  /\ order (current_winner spade_holder six_led) = 6
  /\ gr_card spade_holder SPADES (current_winner spade_holder six_led)
     = Some (card_of (Num 9) SPADES 2 false)
  /\ sm_card spade_holder SPADES (current_winner spade_holder six_led)
     = Some (card_of (Num 3) SPADES 2 false).
Proof.
  intros H. split; [now apply ai_select_follow|].
  split; [intros g; apply gr_card_Some|].
  split; [apply gr_card_None|].
  split; [intros m; apply sm_card_Some|].
  split; [apply sm_card_None|].
  repeat split.
Qed.

Lemma gr_sm_card_spec_witness :
  ai_select spade_holder six_led
  = Ok (card_of (Num 9) SPADES 2 false,
        with_cards spade_holder
          [card_of (Num 3) SPADES 2 false; card_of J CLUBS 2 false]).
Proof.
  destruct (gr_sm_card_spec spade_holder six_led eq_refl) as [E _].
  rewrite E. reflexivity.
Defined.

(** C2 as stated fails on [sm_card]: in the scenario of the
    specification the search for [sm_card] finds the 3 of spades, not
    nothing; and with the 3 and the 5 of spades in hand below a winner of
    order 6 it is the 3, not the 5, the largest card not above the
    winner. *)
Lemma sm_card_is_lowest :
  has spade_holder (lead_suit spade_holder six_led) = true
  /\ sm_card spade_holder (lead_suit spade_holder six_led)
       (current_winner spade_holder six_led)
     = Some (card_of (Num 3) SPADES 2 false)
  /\ has low_spades (lead_suit low_spades six_led) = true
  /\ In (card_of (Num 5) SPADES 2 false) (cards low_spades)
  /\ order (card_of (Num 5) SPADES 2 false)
     <= order (current_winner low_spades six_led)
  /\ sm_card low_spades (lead_suit low_spades six_led)
       (current_winner low_spades six_led)
     = Some (card_of (Num 3) SPADES 2 false).
Proof. repeat split. simpl. auto. discriminate. Qed.

(** ** When the automated player faults *)

Lemma remove_card_In (c : Card) (l : list Card) :
  In c l -> exists rest, remove_card c l = Ok rest.
Proof.
  induction l as [|y l IH]; simpl; [intros []|].
  intros Hin. destruct (Card_eq_dec c y) as [E|E]; [now exists l|].
  destruct Hin as [->|Hin]; [congruence|].
  destruct (IH Hin) as [rest ->]. now exists (y :: rest).
Qed.

Lemma play_In (self : Player Card) (c : Card) :
  In c (cards self) ->
  exists rest, remove_card c (cards self) = Ok rest
               /\ play self (Some c) = Ok (c, with_cards self rest).
Proof.
  intros Hin. destruct (remove_card_In _ _ Hin) as [rest E].
  exists rest. split; [exact E|]. unfold play. now rewrite E.
Qed.

(** The branch that follows suit plays [gr_card] or [sm_card] when one of
    them exists, and faults when both are absent. *)
Lemma follow_suit_cases (self : Player Card) (s : Suit) (w : Card) :
  (exists c, (gr_card self s w = Some c \/ sm_card self s w = Some c)
             /\ follow_suit self s w = play self (Some c))
  \/ (gr_card self s w = None /\ sm_card self s w = None
      /\ follow_suit self s w = Raise ValueError).
Proof.
  unfold follow_suit.
  destruct (gr_card self s w) as [g|] eqn:Eg,
           (sm_card self s w) as [m|] eqn:Em.
  - left. destruct (_ && _); [exists g|exists m]; auto.
  - left. exists g. destruct (_ && _); auto.
  - left. exists m. auto.
  - right. auto.
Qed.

(** ** The automated player discards *)

Section Discard.

Variable self : Player Card.
Variable w : Card.

(** The nested tests of the loop amount to the single test
    [overtakes]. *)
Lemma discard_scan_find (hand : list Card) (smallest : Card) :
  discard_scan self w hand smallest
  = match find (overtakes self w) hand with
    | Some c => c
    | None => fold_left (track self) hand smallest
    end.
Proof.
  revert smallest. induction hand as [|c hand IH]; intro smallest; simpl.
  - reflexivity.
  - unfold overtakes at 1.
    destruct (ato c && not_teammates self w); simpl; [|apply IH].
    destruct (Suit_eqb (suit c) (suit w)); [|reflexivity].
    destruct (order c >? order w); [reflexivity|apply IH].
Qed.

Lemma track_spec (smallest c : Card) :
  (track self smallest c = c /\ preferred self c smallest)
  \/ (track self smallest c = smallest /\ worse self smallest c).
Proof.
  unfold track, preferred, worse, suit_count.
  destruct (order c <=? order smallest) eqn:Hle.
  - apply Z.leb_le in Hle. destruct (order c =? order smallest) eqn:Heq.
    + apply Z.eqb_eq in Heq.
      destruct (Nat.leb_spec (length (get_suit self (suit smallest)))
                             (length (get_suit self (suit c)))).
      * left. split; [reflexivity|]. right. split; [congruence|assumption].
      * right. split; [reflexivity|]. right. split; [assumption|lia].
    + apply Z.eqb_neq in Heq. left. split; [reflexivity|]. left. lia.
  - apply Z.leb_gt in Hle. right. split; [reflexivity|]. left. lia.
Qed.

Lemma preferred_trans (a b c : Card) :
  preferred self a b -> preferred self b c -> preferred self a c.
Proof. unfold preferred. intros [H|[H1 H2]] [H'|[H1' H2']]; lia. Qed.

Lemma worse_preferred (a b : Card) : worse self a b -> preferred self a b.
Proof. unfold worse, preferred. intros [H|[H1 H2]]; lia. Qed.

Lemma preferred_refl (a : Card) : preferred self a a.
Proof. unfold preferred. right. split; [reflexivity|lia]. Qed.

Lemma worse_irrefl (a : Card) : ~ worse self a a.
Proof. unfold worse. intros [H|[_ H]]; lia. Qed.

(** The tracked card is preferred to the initial one and to every card
    scanned. *)
Lemma fold_track_preferred (hand : list Card) (smallest : Card) :
  preferred self (fold_left (track self) hand smallest) smallest
  /\ forall c, In c hand ->
               preferred self (fold_left (track self) hand smallest) c.
Proof.
  revert smallest. induction hand as [|c hand IH]; intro smallest; simpl.
  - split; [apply preferred_refl|intros c []].
  - destruct (IH (track self smallest c)) as [H1 H2].
    destruct (track_spec smallest c) as [[E Hp]|[E Hw]]; rewrite E in *.
    + split; [eapply preferred_trans; eauto|].
      intros x [<-|Hx]; auto.
    + split; [assumption|].
      intros x [<-|Hx]; auto.
      eapply preferred_trans; eauto using worse_preferred.
Qed.

(** The tracked card is the initial one, or stands in the hand; the
    cards scanned after it are strictly worse. *)
Lemma fold_track_last (hand : list Card) (smallest : Card) :
  (fold_left (track self) hand smallest = smallest
   /\ Forall (worse self smallest) hand)
  \/ exists l1 l2,
       hand = l1 ++ fold_left (track self) hand smallest :: l2
       /\ Forall (worse self (fold_left (track self) hand smallest)) l2.
Proof.
  revert smallest. induction hand as [|c hand IH]; intro smallest; simpl.
  - left. split; [reflexivity|constructor].
  - destruct (track_spec smallest c) as [[E Hp]|[E Hw]]; rewrite E.
    + right. destruct (IH c) as [[Er Hf]|(l1 & l2 & Hs & Hf)].
      * exists [], hand. rewrite Er. split; [reflexivity|assumption].
      * exists (c :: l1), l2. split; [|assumption].
        simpl. now rewrite <- Hs.
    + destruct (IH smallest) as [[Er Hf]|(l1 & l2 & Hs & Hf)].
      * left. rewrite Er. split; [reflexivity|]. now constructor.
      * right. exists (c :: l1), l2. split; [|assumption].
        simpl. now rewrite <- Hs.
Qed.

(** The card [ai_select] discards from a hand [first :: rest]: the first
    card that [overtakes] when there is one, and otherwise a card
    preferred to every card of the hand, the last such in hand order. *)
Lemma discard_scan_spec (first : Card) (rest : list Card) :
  let d := discard_scan self w (first :: rest) first in
  In d (first :: rest)
  /\ match find (overtakes self w) (first :: rest) with
     | Some t => d = t
     | None =>
         (forall c, In c (first :: rest) -> preferred self d c)
         /\ exists l1 l2,
              first :: rest = l1 ++ d :: l2 /\ Forall (worse self d) l2
     end.
Proof.
  intro d. subst d. rewrite discard_scan_find.
  destruct (find (overtakes self w) (first :: rest)) as [t|] eqn:Ef.
  - split; [|reflexivity]. now apply find_some in Ef.
  - assert (Hl : exists l1 l2,
       first :: rest
       = l1 ++ fold_left (track self) (first :: rest) first :: l2
       /\ Forall (worse self (fold_left (track self) (first :: rest) first))
                 l2).
    { destruct (fold_track_last (first :: rest) first)
        as [[_ Hf]|H]; [|exact H].
      inversion Hf as [|? ? Hw _]. now apply worse_irrefl in Hw. }
    split; [|split; [apply fold_track_preferred|exact Hl]].
    destruct Hl as (l1 & l2 & Hs & _). rewrite Hs at 2.
    apply in_or_app. right. now left.
Qed.

End Discard.

Lemma ai_select_discard_eq (self : Player Card) (table : list Card)
  (first : Card) (rest : list Card) :
  cards self = first :: rest ->
  has self (lead_suit self table) = false ->
  ai_select self table
  = play self (Some (discard_scan self (current_winner self table)
                       (first :: rest) first)).
Proof. intros Ec Hh. unfold ai_select. now rewrite Ec, Hh. Qed.

(** [ai_select] raises exactly on an empty hand and on a hand whose
    cards of the lead suit all have the order of the current winner. *)
Lemma ai_select_fault_iff (self : Player Card) (table : list Card) :
  (exists e, ai_select self table = Raise e)
  <-> cards self = []
      \/ (has self (lead_suit self table) = true
          /\ forall c, In c (cards self) -> suit c = lead_suit self table ->
                       order c = order (current_winner self table)).
Proof.
  split.
  - intros [e He]. destruct (cards self) as [|c0 hand] eqn:Ec; [now left|].
    right. rewrite <- Ec.
    destruct (has self (lead_suit self table)) eqn:Hh.
    + split; [reflexivity|]. rewrite ai_select_follow in He by exact Hh.
      destruct (follow_suit_cases self (lead_suit self table)
                  (current_winner self table))
        as [(c & Hc & E)|(Hg & Hm & _)].
      * rewrite E in He.
        assert (Hin : In c (cards self)).
        { destruct Hc as [Hc|Hc];
            [apply gr_card_Some in Hc|apply sm_card_Some in Hc]; tauto. }
        destruct (play_In self c Hin) as (rest & _ & Hp). congruence.
      * intros c Hc Hs.
        pose proof (proj1 (gr_card_None _ _ _) Hg c Hc Hs).
        pose proof (proj1 (sm_card_None _ _ _) Hm c Hc Hs). lia.
    + rewrite (ai_select_discard_eq self table c0 hand Ec Hh) in He.
      destruct (discard_scan_spec self (current_winner self table) c0 hand)
        as [Hin _].
      rewrite <- Ec in Hin at 2.
      destruct (play_In self _ Hin) as (rest & _ & Hp). congruence.
  - intros [Ec|[Hh Hall]].
    + exists IndexError. unfold ai_select. now rewrite Ec.
    + exists ValueError. rewrite ai_select_follow by exact Hh.
      destruct (follow_suit_cases self (lead_suit self table)
                  (current_winner self table))
        as [(c & Hc & E)|(_ & _ & E)]; [|exact E].
      destruct Hc as [Hc|Hc];
        [apply gr_card_Some in Hc|apply sm_card_Some in Hc];
        destruct Hc as (Hin & Hs & Hlt & _);
        specialize (Hall c Hin Hs); lia.
Qed.

Lemma find_first {A : Type} (p : A -> bool) (l : list A) (x : A) :
  find p l = Some x ->
  exists l1 l2, l = l1 ++ x :: l2 /\ p x = true
                /\ Forall (fun y => p y = false) l1.
Proof.
  induction l as [|y l IH]; simpl; [discriminate|].
  destruct (p y) eqn:E.
  - intros [= <-]. exists [], l. auto.
  - intros H. destruct (IH H) as (l1 & l2 & -> & Hx & Hf).
    exists (y :: l1), l2. auto.
Qed.

Lemma find_none_Forall {A : Type} (p : A -> bool) (l : list A) :
  find p l = None -> Forall (fun y => p y = false) l.
Proof. intros H. apply Forall_forall. now apply find_none. Qed.

Lemma discard_scan_discards (self : Player Card) (w first : Card)
  (rest : list Card) :
  discards self w (first :: rest)
    (discard_scan self w (first :: rest) first).
Proof.
  destruct (discard_scan_spec self w first rest) as [_ H].
  unfold discards.
  destruct (find (overtakes self w) (first :: rest)) as [t|] eqn:Ef.
  - left. rewrite H. now apply find_first.
  - right. split; [now apply find_none_Forall|exact H].
Qed.

(** Out of the lead suit, a player with cards always plays one, chosen
    as [discards] says. *)
Lemma ai_select_discards (self : Player Card) (table : list Card) :
  cards self <> [] ->
  has self (lead_suit self table) = false ->
  exists c rest,
    ai_select self table = Ok (c, with_cards self rest)
    /\ remove_card c (cards self) = Ok rest
    /\ In c (cards self)
    /\ discards self (current_winner self table) (cards self) c.
Proof.
  intros Hne Hh.
  assert (exists first hand, cards self = first :: hand)
    as (first & hand & Ec).
  { destruct (cards self) as [|first hand]; [congruence|eauto]. }
  rewrite (ai_select_discard_eq self table first hand Ec Hh).
  set (d := discard_scan _ _ _ _).
  assert (Hin : In d (cards self)).
  { rewrite Ec. apply discard_scan_spec. }
  destruct (play_In self d Hin) as (rest & Hr & Hp).
  exists d, rest. split; [exact Hp|]. split; [exact Hr|].
  split; [exact Hin|]. rewrite Ec. apply discard_scan_discards.
Qed.

(** C7, as amended: when the player does not hold the lead suit,
    [ai_select] plays the first card, in hand order, that is a trump
    while the current winner is not the teammate's and that differs in
    suit from the winner or strictly exceeds its order; when the hand has
    no such card (a trump of the winner's suit that does not exceed it is
    no such card), it plays a card of minimum order whose suit is, among
    the cards of that order, one of the longest in hand, the last such
    card in hand order. *)
Theorem ai_select_discard (self : Player Card) (table : list Card) :
  cards self <> [] ->
  has self (lead_suit self table) = false ->
  exists c rest,
    ai_select self table = Ok (c, with_cards self rest)
    /\ remove_card c (cards self) = Ok rest
    /\ In c (cards self)
    /\ discards self (current_winner self table) (cards self) c.
Proof.
  intros Hne Hh.
  destruct (cards self) as [|first hand] eqn:Ec; [congruence|]. clear Hne.
  rewrite (ai_select_discard_eq self table first hand Ec Hh).
  pose proof (discard_scan_spec self (current_winner self table) first hand)
    as [Hin _].
  pose proof (discard_scan_discards self (current_winner self table)
                first hand) as Hd.
  rewrite <- Ec in Hin at 2.
  destruct (play_In self _ Hin) as (rest & Hr & Hp).
  rewrite Ec in Hr, Hin.
  eexists; exists rest.
  split; [exact Hp|]. split; [exact Hr|]. split; [exact Hin|exact Hd].
Qed.

Lemma ai_select_discard_witness :
  exists c rest,
    ai_select low_trump trumped_four = Ok (c, with_cards low_trump rest)
    /\ remove_card c (cards low_trump) = Ok rest
    /\ In c (cards low_trump)
    /\ discards low_trump (current_winner low_trump trumped_four)
         (cards low_trump) c.
Proof.
  apply ai_select_discard; [discriminate|reflexivity].
Defined.

(** C7 as stated fails: player 2 is out of the suit led, the winner is
    player 1's 9 of hearts, not the teammate's, and the first trump of
    the hand, the 3 of hearts, is not played; the 2 of clubs is. *)
Lemma low_trump_kept :
  has low_trump (lead_suit low_trump trumped_four) = false
  /\ not_teammates low_trump (current_winner low_trump trumped_four) = true
  /\ find ato (cards low_trump) = Some (card_of (Num 3) HEARTS 2 true)
  /\ ai_select low_trump trumped_four
     = Ok (card_of (Num 2) CLUBS 2 false,
           with_cards low_trump [card_of (Num 3) HEARTS 2 true]).
Proof. repeat split. Qed.

(** ** The automated player leads *)

Lemma dealt_rank_order (c : Card) : dealt_rank (rank c) -> 2 <= order c <= 14.
Proof. unfold dealt_rank, order. destruct (rank c); lia. Qed.

(** C8, as amended: when [ai_select] is called on an empty table with a
    hand of dealt cards, the placeholder (order -1, hearts, owned by the
    selecting player itself, not trump) is the current winner and hearts
    is the suit to follow: a player that holds hearts plays its lowest
    heart, a player without hearts discards as against the placeholder;
    the card returned is always a card of the hand and never the
    placeholder. *)
Theorem ai_select_leading (self : Player Card) :
  cards self <> [] ->
  Forall (fun c => dealt_rank (rank c)) (cards self) ->
  current_winner self [] = placeholder self
  /\ owner (placeholder self) = Some (name self)
  /\ lead_suit self [] = HEARTS
  /\ exists c rest,
       ai_select self [] = Ok (c, with_cards self rest)
       /\ remove_card c (cards self) = Ok rest
       /\ In c (cards self)
       /\ c <> placeholder self
       /\ (has self HEARTS = true ->
           suit c = HEARTS
           /\ forall x, In x (cards self) -> suit x = HEARTS ->
                        order c <= order x)
       /\ (has self HEARTS = false ->
           discards self (placeholder self) (cards self) c).
Proof.
  intros Hne Hd. rewrite Forall_forall in Hd.
  split; [reflexivity|]. split; [reflexivity|]. split; [reflexivity|].
  assert (Hph : forall c, In c (cards self) -> c <> placeholder self).
  { intros c Hc ->. apply Hd, dealt_rank_order in Hc.
    unfold order, placeholder in Hc. simpl in Hc. lia. }
  destruct (has self HEARTS) eqn:Hh.
  - assert (Hl : has self (lead_suit self []) = true) by exact Hh.
    rewrite (ai_select_follow self [] Hl).
    change (lead_suit self []) with HEARTS.
    change (current_winner self []) with (placeholder self).
    assert (Hm : sm_card self HEARTS (placeholder self) = None).
    { apply sm_card_None. intros c Hc _.
      apply Hd, dealt_rank_order in Hc. unfold order at 1. simpl. lia. }
    destruct (gr_card self HEARTS (placeholder self)) as [g|] eqn:Hg.
    + assert (E : follow_suit self HEARTS (placeholder self)
                  = play self (Some g)).
      { unfold follow_suit. rewrite Hg, Hm. now destruct (_ && _). }
      apply gr_card_Some in Hg as (Hin & Hs & _ & Hmin).
      destruct (play_In self g Hin) as (rest & Hr & Hp).
      exists g, rest. rewrite E.
      split; [exact Hp|]. split; [exact Hr|]. split; [exact Hin|].
      split; [now apply Hph|]. split; [|discriminate].
      intros _. split; [exact Hs|].
      intros x Hx Hxs. apply Hmin; auto.
      apply Hd, dealt_rank_order in Hx. unfold order at 1. simpl. lia.
    + apply has_In in Hh as (c & Hc & Hs).
      pose proof (proj1 (gr_card_None _ _ _) Hg c Hc Hs) as Hle.
      apply Hd, dealt_rank_order in Hc. unfold order at 2 in Hle.
      simpl in Hle. lia.
  - destruct (ai_select_discards self [] Hne Hh)
      as (c & rest & E & Hr & Hin & H).
    exists c, rest.
    split; [exact E|]. split; [exact Hr|]. split; [exact Hin|].
    split; [now apply Hph|]. split; [discriminate|]. intros _. exact H.
Qed.

Lemma ai_select_leading_witness :
  exists c rest,
    ai_select heart_spade [] = Ok (c, with_cards heart_spade rest)
    /\ c = card_of (Num 2) HEARTS 2 false.
Proof.
  assert (Hd : Forall (fun c => dealt_rank (rank c)) (cards heart_spade)).
  { repeat constructor; simpl; lia. }
  destruct (ai_select_leading heart_spade ltac:(discriminate) Hd)
    as (_ & _ & _ & c & rest & E & _).
  exists c, rest. split; [exact E|].
  cbv in E. injection E as Ec _. symmetry. exact Ec.
Defined.

(** C8 as stated fails: the placeholder is owned by the selecting player
    and its suit, hearts, is the suit followed; of two hands that differ
    by the exchange of hearts and spades, one plays its 3 and the other
    its 2. *)
Lemma hearts_distinguished :
  owner (provisional spade_heart []) = Some (name spade_heart)
  /\ lead_suit spade_heart [] = HEARTS
  /\ ai_select spade_heart []
     = Ok (card_of (Num 3) HEARTS 2 false,
           with_cards spade_heart [card_of (Num 2) SPADES 2 false])
  /\ ai_select heart_spade []
     = Ok (card_of (Num 2) HEARTS 2 false,
           with_cards heart_spade [card_of (Num 3) SPADES 2 false]).
Proof. repeat split. Qed.

(** ** The match: scores *)

(** Inversion of a successful [bind]. *)
Lemma bind_Ok {A B : Type} (r : Result A) (k : A -> Result B) (b : B) :
  bind r k = Ok b -> exists a, r = Ok a /\ k a = Ok b.
Proof. destruct r as [a|e]; simpl; [eauto|discriminate]. Qed.

Ltac inv_bind H :=
  let a := fresh "a" in
  let E := fresh "E" in
  apply bind_Ok in H; destruct H as (a & E & H).

(** What a turn changes in the game: the hand of the player that acted,
    which loses the card played, and the trump flags of the deck when the
    turn is a human one from a hand of thirteen; nothing else. *)
Lemma player_turn_update (g : West) (player : option PlayerId)
  (table : list CardRef) (ai : bool) (input : list Line)
  (g' : West) (table' : list CardRef) (input' : list Line) :
  player_turn g player table ai input = Ok (g', table', input') ->
  exists p played,
    get_player g player = Ok p
    /\ In played (cards p)
    /\ table' = table ++ [played]
    /\ g' = update g
              (if negb ai && Nat.eqb (length (cards p)) 13
               then set_ato (suit (deref (deck g) played)) (deck g)
               else deck g)
              (with_cards p (remove_ref played (cards p))).
Proof.
  unfold player_turn. intros H. inv_bind H. rename a into p.
  exists p. destruct ai; simpl in H.
  - inv_bind H. destruct a as [played p']. injection H as <- <- <-.
    unfold ai_select_ref in E0. inv_bind E0. destruct a as [c q].
    destruct (find _ (cards p)) as [r|] eqn:Ef; [|discriminate].
    injection E0 as <- <-. exists r.
    apply find_some in Ef as [Hin _]. auto.
  - assert (Hsel : forall played p' input',
              player_select (deck g) p input = Ok (played, p', input') ->
              p' = with_cards p (remove_ref played (cards p))
              /\ In played (cards p)).
    { clear. induction input as [|[[r s]|] input IH]; simpl;
        intros played p' input'; [discriminate| |apply IH].
      unfold get_card. destruct (find _ (cards p)) as [c|] eqn:Ef; [|apply IH].
      intros [= <- <- <-]. split; [reflexivity|]. now apply find_some in Ef. }
    simpl. destruct (Nat.eqb (length (cards p)) 13) eqn:E13;
      inv_bind H; destruct a as [[played p'] i1]; injection H as <- <- <-;
      destruct (Hsel _ _ _ E0) as [-> Hin]; exists played; auto.
Qed.

Lemma player_turn_points (g : West) (player : option PlayerId)
  (table : list CardRef) (ai : bool) (input : list Line)
  (g' : West) (table' : list CardRef) (input' : list Line) :
  player_turn g player table ai input = Ok (g', table', input') ->
  t1_points g' = t1_points g /\ t2_points g' = t2_points g.
Proof.
  intros H. apply player_turn_update in H as (p & c & _ & _ & _ & ->).
  split; reflexivity.
Qed.

Lemma player_turns_points (ps : list (option PlayerId * bool)) (g : West)
  (table : list CardRef) (input : list Line)
  (g' : West) (table' : list CardRef) (input' : list Line) :
  player_turns g ps table input = Ok (g', table', input') ->
  t1_points g' = t1_points g /\ t2_points g' = t2_points g.
Proof.
  revert g table input. induction ps as [|[player ai] ps IH];
    simpl; intros g table input H.
  - injection H as <- _ _. auto.
  - inv_bind H. destruct a as [[g1 table1] input1].
    apply IH in H as [-> ->]. eapply player_turn_points; eauto.
Qed.

(** A completed round gives one point to exactly one partnership. *)
Lemma play_round_one_point (g : West) (t_win : option PlayerId)
  (input : list Line) (g' : West) (t_win' : option PlayerId)
  (input' : list Line) :
  play_round g t_win input = Ok (g', t_win', input') ->
  one_point (t1_points g, t2_points g) (t1_points g', t2_points g').
Proof.
  unfold play_round. intros H. inv_bind H. inv_bind H.
  destruct a0 as [[g1 table1] input1]. inv_bind H.
  apply player_turns_points in E0 as [Hp1 Hp2]. unfold one_point.
  destruct (_ || _); injection H as <- _ _; simpl; rewrite Hp1, Hp2; auto.
Qed.

Lemma last_default {A : Type} (l : list A) (x a b : A) :
  last (x :: l) a = last (x :: l) b.
Proof.
  revert x. induction l as [|y l IH]; intro x; [reflexivity|].
  change (last (y :: l) a = last (y :: l) b). apply IH.
Qed.

Lemma score_chain_app (a : Z * Z) (l : list (Z * Z)) (b : Z * Z) :
  score_chain a l -> one_point (last l a) b -> score_chain a (l ++ [b]).
Proof.
  revert a. induction l as [|x l IH]; intros a; simpl.
  - auto.
  - intros [H1 H2] Hb. split; [exact H1|]. apply IH; [exact H2|].
    destruct l as [|y l]; [exact Hb|].
    rewrite (last_default l y x a). exact Hb.
Qed.

(** The loop from round [game_r] on: what is printed extends what was
    printed by one board per remaining round. *)
Lemma start_loop_boards (fuel : nat) :
  forall (g : West) (t_win : option PlayerId) (game_r : Z)
         (input : list Line) (printed : list (Z * Z))
         (g' : West) (out : Output),
    start_loop fuel g t_win game_r input printed = Some (Ok (g', out)) ->
    game_r <= 14 ->
    exists more,
      boards out = printed ++ more
      /\ length more = Z.to_nat (14 - game_r)
      /\ score_chain (t1_points g, t2_points g) more
      /\ last more (t1_points g, t2_points g) = (t1_points g', t2_points g')
      /\ final out = verdict (t1_points g') (t2_points g').
Proof.
  induction fuel as [|fuel IH]; intros g t_win game_r input printed
    g' out H Hr; simpl in H; [discriminate|].
  destruct (game_r =? 14) eqn:E14.
  - apply Z.eqb_eq in E14. subst game_r. injection H as <- <-.
    exists []. rewrite app_nil_r. repeat split.
  - apply Z.eqb_neq in E14.
    destruct (play_round g t_win input) as [[[g1 t1] input1]|e] eqn:Er;
      [|discriminate].
    apply play_round_one_point in Er.
    apply IH in H as (more & Hb & Hl & Hc & Hlast & Hf); [|lia].
    exists ((t1_points g1, t2_points g1) :: more).
    rewrite Hb, <- app_assoc.
    split; [reflexivity|]. split; [simpl length; rewrite Hl; lia|].
    split; [now split|]. split; [|exact Hf].
    destruct more as [|y more]; [exact Hlast|].
    rewrite <- Hlast.
    apply (last_default more y (t1_points g, t2_points g)).
Qed.

Lemma score_chain_sum (l : list (Z * Z)) (a : Z * Z) :
  score_chain a l ->
  fst (last l a) + snd (last l a) = fst a + snd a + Z.of_nat (length l)
  /\ Forall (fun b => fst a <= fst b /\ snd a <= snd b) l.
Proof.
  revert a. induction l as [|x l IH]; intros a; simpl.
  - intros _. split; [lia|constructor].
  - intros [H1 H2]. destruct (IH x H2) as [Hs Hf].
    assert (Hx : fst a <= fst x /\ snd a <= snd x
                 /\ fst x + snd x = fst a + snd a + 1).
    { destruct H1 as [[? ?]|[? ?]]; lia. }
    split.
    + destruct l as [|y l]; [simpl in *; lia|].
      change (last (x :: y :: l) a) with (last (y :: l) a).
      rewrite (last_default l y a x). lia.
    + constructor; [tauto|].
      eapply Forall_impl; [|exact Hf]. simpl. intros b. lia.
Qed.

(** Fourteen iterations are enough for the loop to end, by the verdict
    or by an exception. *)
Lemma start_loop_fuel (fuel : nat) :
  forall (g : West) (t_win : option PlayerId) (game_r : Z)
         (input : list Line) (printed : list (Z * Z)),
    1 <= game_r <= 14 -> (Z.to_nat (15 - game_r) <= fuel)%nat ->
    exists r, start_loop fuel g t_win game_r input printed = Some r.
Proof.
  induction fuel as [|fuel IH]; intros g t_win game_r input printed Hr Hf.
  - lia.
  - simpl. destruct (game_r =? 14) eqn:E14; [eauto|].
    apply Z.eqb_neq in E14.
    destruct (play_round g t_win input) as [[[g1 t1] input1]|e]; [|eauto].
    apply IH; lia.
Qed.

Lemma start_fuel (fuel : nat) (g : West) (input : list Line) :
  (14 <= fuel)%nat -> exists r, start fuel g input = Some r.
Proof. intros H. apply start_loop_fuel; lia. Qed.

(** C9: every completed round gives exactly one point to exactly one of
    the two partnerships; over a match that reaches its verdict the
    thirteen boards printed start one point from nil-nil, each one point
    from the board before it, no counter ever below zero nor below an
    earlier value, and the final scores sum to thirteen. *)
Theorem scores_count_rounds (deck0 : list Card) (input : list Line)
  (fuel : nat) (g : West) (out : Output) :
  start fuel (prepare_cards deck0) input = Some (Ok (g, out)) ->
  (forall g0 t_win input0 g1 t_win1 input1,
      play_round g0 t_win input0 = Ok (g1, t_win1, input1) ->
      one_point (t1_points g0, t2_points g0) (t1_points g1, t2_points g1))
  /\ length (boards out) = 13%nat
  /\ score_chain (0, 0) (boards out)
  /\ Forall (fun board => 0 <= fst board /\ 0 <= snd board) (boards out)
  /\ last (boards out) (0, 0) = (t1_points g, t2_points g)
  /\ t1_points g + t2_points g = 13.
Proof.
  intros H. split; [intros; eapply play_round_one_point; eauto|].
  apply start_loop_boards in H as (more & Hb & Hl & Hc & Hlast & _); [|lia].
  simpl in Hb, Hc, Hlast. rewrite Hb.
  destruct (score_chain_sum more (0, 0) Hc) as [Hs Hf].
  rewrite Hlast, Hl in Hs. simpl in Hs.
  repeat split; auto; lia.
Qed.

Lemma scores_count_rounds_witness :
  exists g out,
    start 14 (prepare_cards deck_by_threes) patient_lines = Some (Ok (g, out))
    /\ length (boards out) = 13%nat
    /\ t1_points g + t2_points g = 13.
Proof.
  destruct (start 14 (prepare_cards deck_by_threes) patient_lines)
    as [[[g out]|e]|] eqn:E.
  - exists g, out. split; [reflexivity|].
    destruct (scores_count_rounds _ _ _ _ _ E) as (_ & Hl & _ & _ & _ & Hs).
    split; [exact Hl|exact Hs].
  - vm_compute in E. discriminate E.
  - vm_compute in E. discriminate E.
Defined.

(** ** The match: the verdict *)

Lemma remove_card_Permutation (x : Card) (l l' : list Card) :
  remove_card x l = Ok l' -> Permutation l (x :: l').
Proof.
  revert l'. induction l as [|y l IH]; simpl; intro l'; [discriminate|].
  destruct (Card_eq_dec x y) as [<-|_].
  - intros [= <-]. apply Permutation_refl.
  - intros H. inv_bind H. injection H as <-.
    apply IH in E. rewrite E. apply perm_swap.
Qed.

Lemma rearranged_Permutation (l l' : list Card) :
  rearranged l l' = true -> Permutation l l'.
Proof.
  revert l'. induction l as [|x l IH]; simpl; intro l'.
  - destruct l'; [constructor|discriminate].
  - destruct (remove_card x l') as [l''|e] eqn:E; [|discriminate].
    intros H. apply IH in H. apply remove_card_Permutation in E.
    rewrite E. now constructor.
Qed.

Lemma shuffled_by_threes : shuffled deck_by_threes.
Proof. apply rearranged_Permutation. vm_compute. reflexivity. Qed.

(** The second partnership is never announced. *)
Lemma verdict_never_second (t1 t2 : Z) : verdict t1 t2 <> SecondTeamWon.
Proof.
  unfold verdict. destruct (t1 >? t2); [discriminate|].
  destruct (t2 >? t2) eqn:E; [|discriminate].
  apply Z.gtb_gt in E. lia.
Qed.

(** C4 fails on the code: with six points against seven the verdict is a
    tie, and a match on a shuffled deck ends so; line 370 compares
    [t2_points] with itself. *)
Theorem verdict_six_seven :
  6 + 7 = 13
  /\ verdict 6 7 = TIE
  /\ shuffled deck_by_threes
  /\ exists g out,
       start 14 (prepare_cards deck_by_threes) patient_lines
       = Some (Ok (g, out))
       /\ t1_points g = 6 /\ t2_points g = 7 /\ final out = TIE.
Proof.
  split; [reflexivity|]. split; [reflexivity|].
  split; [exact shuffled_by_threes|].
  destruct (start 14 (prepare_cards deck_by_threes) patient_lines)
    as [[[g out]|e]|] eqn:E; vm_compute in E; try discriminate E.
  exists g, out. split; [reflexivity|].
  injection E as <- <-. repeat split.
Qed.

(** ** The match: trump flags *)

Lemma update_from_map {B : Type} (proj : Card -> B)
  (f : CardRef -> Card -> Card) (d : list Card) (i : nat) :
  (forall j c, proj (f j c) = proj c) ->
  map proj (update_from i f d) = map proj d.
Proof.
  intros Hf. revert i. induction d as [|c d IH]; intro i; simpl.
  - reflexivity.
  - now rewrite Hf, IH.
Qed.

Lemma set_owner_map {B : Type} (proj : Card -> B) (p : PlayerId)
  (refs : list CardRef) (d : list Card) :
  (forall c o, proj (mkCard (rank c) (suit c) o (ato c)) = proj c) ->
  map proj (set_owner p refs d) = map proj d.
Proof.
  intros H. apply update_from_map. intros j c.
  destruct (existsb (Nat.eqb j) refs); [apply H|reflexivity].
Qed.

(** The deal touches owners only: flags and suits are those of the deck
    dealt. *)
Lemma prepare_cards_map {B : Type} (proj : Card -> B) (d : list Card) :
  (forall c o, proj (mkCard (rank c) (suit c) o (ato c)) = proj c) ->
  map proj (deck (prepare_cards d)) = map proj d.
Proof.
  intros H. unfold prepare_cards. simpl deck.
  now rewrite !set_owner_map by exact H.
Qed.

Lemma map_length_eq {B : Type} (f : Card -> B) (l l' : list Card) :
  map f l = map f l' -> length l = length l'.
Proof. intros H. rewrite <- (length_map f l), H. apply length_map. Qed.

Lemma map_Forall_eq {B : Type} (f : Card -> B) (P : B -> Prop)
  (l l' : list Card) :
  map f l = map f l' -> Forall (fun c => P (f c)) l' ->
  Forall (fun c => P (f c)) l.
Proof.
  intros H Hl. apply Forall_map. rewrite H. now apply Forall_map.
Qed.

Lemma count_suit_map (s : Suit) (l : list Card) :
  length (filter (fun c => Suit_eqb (suit c) s) l)
  = length (filter (fun x => Suit_eqb x s) (map suit l)).
Proof.
  induction l as [|c l IH]; simpl; [reflexivity|].
  destruct (Suit_eqb (suit c) s); simpl; now rewrite IH.
Qed.

Lemma Permutation_filter_length {B : Type} (f : B -> bool) (l l' : list B) :
  Permutation l l' -> length (filter f l) = length (filter f l').
Proof.
  induction 1 as [|x l l' _ IH|x y l|l l' l'' _ IH1 _ IH2]; simpl.
  - reflexivity.
  - destruct (f x); simpl; now rewrite IH.
  - destruct (f x), (f y); reflexivity.
  - now rewrite IH1.
Qed.

(** A shuffled deck: fifty-two cards, thirteen of every suit, no trump
    flag set. *)
Lemma shuffled_facts (d : list Card) :
  shuffled d ->
  length d = 52%nat
  /\ Forall (fun c => ato c = false) d
  /\ forall s, length (filter (fun c => Suit_eqb (suit c) s) d) = 13%nat.
Proof.
  intros H. split; [|split].
  - now rewrite <- (Permutation_length H).
  - apply Forall_forall. intros c Hc.
    apply (Permutation_in _ (Permutation_sym H)) in Hc.
    revert c Hc. apply Forall_forall. repeat constructor.
  - intros s. rewrite <- (Permutation_filter_length _ _ _ H).
    destruct s; reflexivity.
Qed.

Lemma set_ato_flag (s : Suit) (d : list Card) :
  Forall (fun c => ato c = false) d ->
  forall c, In c (set_ato s d) -> (ato c = true <-> suit c = s).
Proof.
  intros Hd c Hc. unfold set_ato in Hc. apply in_map_iff in Hc as (c0 & <- & H0).
  rewrite Forall_forall in Hd. specialize (Hd c0 H0).
  destruct (Suit_eqb (suit c0) s) eqn:E; simpl.
  - apply Suit_eqb_eq in E. tauto.
  - apply Suit_eqb_neq in E. rewrite Hd. split; [discriminate|contradiction].
Qed.

Lemma set_ato_count (s : Suit) (d : list Card) :
  Forall (fun c => ato c = false) d ->
  length (filter ato (set_ato s d))
  = length (filter (fun c => Suit_eqb (suit c) s) d).
Proof.
  induction 1 as [|c d Hc _ IH]; simpl; [reflexivity|].
  destruct (Suit_eqb (suit c) s); simpl; [now rewrite IH|].
  now rewrite Hc.
Qed.

Lemma set_ato_suit (s : Suit) (d : list Card) (r : CardRef) :
  suit (deref (set_ato s d) r) = suit (deref d r).
Proof.
  unfold deref, set_ato. revert r.
  induction d as [|c d IH]; intros [|r]; simpl; auto.
  destruct (Suit_eqb (suit c) s); reflexivity.
Qed.

Lemma remove_ref_length (x : CardRef) (l : list CardRef) :
  In x l -> length l = S (length (remove_ref x l)).
Proof.
  induction l as [|y l IH]; simpl; [intros []|].
  destruct (Nat.eqb_spec x y) as [->|Hn]; [reflexivity|].
  intros [E|Hin]; [congruence|]. simpl. now rewrite <- IH.
Qed.

(** A player reference resolves to the first player of that name. *)
Lemma get_player_first (g : West) (player : option PlayerId)
  (p : Player CardRef) :
  get_player g player = Ok p ->
  player = Some (name p)
  /\ (name p = name (player_1 g) -> p = player_1 g).
Proof.
  destruct player as [n|]; simpl; [|discriminate].
  destruct (Nat.eqb_spec n (name (player_1 g))) as [E1|E1].
  { intros [= <-]. split; [congruence|reflexivity]. }
  destruct (Nat.eqb_spec n (name (player_2 g))) as [E2|E2].
  { intros [= <-]. split; congruence. }
  destruct (Nat.eqb_spec n (name (player_3 g))) as [E3|E3].
  { intros [= <-]. split; congruence. }
  destruct (Nat.eqb_spec n (name (player_4 g))) as [E4|E4]; [|discriminate].
  intros [= <-]. split; congruence.
Qed.

Lemma update_player_1 (g : West) (d : list Card) (p : Player CardRef) :
  name (player_1 (update g d p)) = name (player_1 g)
  /\ (player_1 (update g d p) = player_1 g
      \/ (player_1 (update g d p) = p /\ name p = name (player_1 g))).
Proof.
  unfold update. simpl.
  destruct (Nat.eqb_spec (name (player_1 g)) (name p)) as [E|E]; auto.
Qed.

(** Once the first player holds fewer than thirteen cards, no operation
    of the match writes a trump flag, nor gives that player a card. *)
Lemma step_deck (g g' : West) :
  step g g' ->
  (length (cards (player_1 g)) <= 12)%nat ->
  deck g' = deck g /\ (length (cards (player_1 g')) <= 12)%nat.
Proof.
  intros [g0 player table ai input g1 table1 input1 Hai H|g0 t1 t2] Hinv;
    [|split; [reflexivity|exact Hinv]].
  apply player_turn_update in H as (p & played & Hp & Hin & _ & ->).
  apply get_player_first in Hp as [-> Hfirst].
  assert (Hd : negb ai && Nat.eqb (length (cards p)) 13 = false).
  { destruct ai; [reflexivity|]. simpl.
    assert (E : name p = name (player_1 g0)) by (specialize (Hai eq_refl); congruence).
    rewrite (Hfirst E). apply Nat.eqb_neq. lia. }
  rewrite Hd. split; [reflexivity|].
  destruct (update_player_1 g0 (deck g0)
              (with_cards p (remove_ref played (cards p))))
    as [_ [->|[-> E]]]; [exact Hinv|].
  simpl in E. rewrite (Hfirst E). simpl.
  pose proof (remove_ref_length _ _ Hin) as Hl. rewrite (Hfirst E) in Hl. lia.
Qed.

Lemma reachable_deck (g g' : West) :
  reachable g g' ->
  (length (cards (player_1 g)) <= 12)%nat ->
  deck g' = deck g /\ (length (cards (player_1 g')) <= 12)%nat.
Proof.
  induction 1 as [|g1 g2 _ IH Hs]; intros Hinv; [auto|].
  destruct (IH Hinv) as [E1 H1].
  destruct (step_deck _ _ Hs H1) as [E2 H2]. split; [congruence|exact H2].
Qed.

Lemma reachable_first (g g1 g2 : West) :
  step g g1 -> reachable g1 g2 -> reachable g g2.
Proof.
  intros Hs. induction 1 as [|g2 g3 _ IH Hs'].
  - eapply reachable_step; [apply reachable_refl|exact Hs].
  - eapply reachable_step; eauto.
Qed.

Lemma player_turn_name (g : West) (player : option PlayerId)
  (table : list CardRef) (ai : bool) (input : list Line)
  (g' : West) (table' : list CardRef) (input' : list Line) :
  player_turn g player table ai input = Ok (g', table', input') ->
  name (player_1 g') = name (player_1 g).
Proof.
  intros H. apply player_turn_update in H as (p & c & _ & _ & _ & ->).
  apply update_player_1.
Qed.

Lemma player_turns_reachable (ps : list (option PlayerId * bool)) :
  forall (g : West) (table : list CardRef) (input : list Line)
         (g' : West) (table' : list CardRef) (input' : list Line),
    Forall (by_hand_is_first g) ps ->
    player_turns g ps table input = Ok (g', table', input') ->
    reachable g g'.
Proof.
  induction ps as [|[player ai] ps IH]; simpl;
    intros g table input g' table' input' Hps H.
  - injection H as <- _ _. apply reachable_refl.
  - inv_bind H. destruct a as [[g1 table1] input1].
    inversion Hps as [|? ? Hhd Htl]; subst.
    apply reachable_first with g1.
    + eapply step_turn; [exact Hhd|exact E].
    + eapply IH; [|exact H].
      eapply Forall_impl; [|exact Htl]. unfold by_hand_is_first.
      intros entry He. now rewrite (player_turn_name _ _ _ _ _ _ _ _ E).
Qed.

Lemma rotation_Forall {B : Type} (P : B -> Prop) (n : nat) (l : list B) :
  Forall P l -> Forall P (skipn n l ++ firstn n l).
Proof.
  intros H. rewrite <- (firstn_skipn n l) in H.
  apply Forall_app in H as [H1 H2]. apply Forall_app. auto.
Qed.

Lemma reachable_trans (g g1 g2 : West) :
  reachable g g1 -> reachable g1 g2 -> reachable g g2.
Proof.
  intros H1. induction 1 as [|g2 g3 _ IH Hs]; [exact H1|].
  eapply reachable_step; eauto.
Qed.

Lemma play_round_reachable (g : West) (t_win : option PlayerId)
  (input : list Line) (g' : West) (t_win' : option PlayerId)
  (input' : list Line) :
  play_round g t_win input = Ok (g', t_win', input') ->
  reachable g g'.
Proof.
  unfold play_round. intros H. inv_bind H. inv_bind H.
  destruct a0 as [[g1 table1] input1]. inv_bind H.
  apply player_turns_reachable in E0.
  - destruct (_ || _); injection H as <- _ _;
      (eapply reachable_step; [exact E0|apply step_score]).
  - apply rotation_Forall. unfold by_hand_is_first.
    repeat constructor; simpl; congruence.
Qed.

Lemma start_loop_reachable (fuel : nat) :
  forall (g : West) (t_win : option PlayerId) (game_r : Z)
         (input : list Line) (printed : list (Z * Z))
         (g' : West) (out : Output),
    start_loop fuel g t_win game_r input printed = Some (Ok (g', out)) ->
    reachable g g'.
Proof.
  induction fuel as [|fuel IH]; intros g t_win game_r input printed g' out H;
    simpl in H; [discriminate|].
  destruct (game_r =? 14).
  - injection H as <- _. apply reachable_refl.
  - destruct (play_round g t_win input) as [[[g1 t1] input1]|e] eqn:Er;
      [|discriminate].
    apply play_round_reachable in Er. apply IH in H.
    eapply reachable_trans; eauto.
Qed.

Lemma get_player_prepared (d : list Card) :
  get_player (prepare_cards d) (Some 1%nat)
  = Ok (player_1 (prepare_cards d)).
Proof. reflexivity. Qed.

(** The first operation of [start] is the turn of player 1, by hand, on
    the empty table. *)
Lemma start_first_turn (fuel : nat) (d : list Card) (input : list Line)
  (g : West) (out : Output) :
  start fuel (prepare_cards d) input = Some (Ok (g, out)) ->
  exists g1 table1 input1,
    player_turn (prepare_cards d) (Some 1%nat) [] false input
    = Ok (g1, table1, input1)
    /\ reachable g1 g.
Proof.
  unfold start. destruct fuel as [|fuel]; [discriminate|].
  cbn [start_loop]. change (1 =? 14) with false. cbv iota.
  destruct (play_round (prepare_cards d) _ input)
    as [[[g' t'] input']|e] eqn:Er; [|discriminate].
  intros H. apply start_loop_reachable in H.
  unfold play_round in Er. inv_bind Er.
  assert (Ea : a = player_1 (prepare_cards d)).
  { change (name (player_1 (prepare_cards d))) with 1%nat in E.
    rewrite get_player_prepared in E. congruence. }
  subst a. change (turn (player_1 (prepare_cards d))) with 0%nat in Er.
  cbn [skipn firstn app player_turns] in Er.
  inv_bind Er. destruct a as [[g2 table2] input2].
  inv_bind E0. destruct a as [[g1 table1] input1].
  exists g1, table1, input1. split; [exact E1|].
  eapply reachable_trans; [|exact H].
  assert (Hn : name (player_1 g1) = name (player_1 (prepare_cards d)))
    by (eapply player_turn_name; eauto).
  assert (R : reachable g1 g2).
  { apply (player_turns_reachable
             [(Some (name (player_2 (prepare_cards d))), true);
              (teammate (player_1 (prepare_cards d)), true);
              (teammate (player_2 (prepare_cards d)), true)]
             g1 table1 input1 g2 table2 input2); [|exact E0].
    unfold by_hand_is_first. repeat constructor; discriminate. }
  inv_bind Er.
  destruct (_ || _); injection Er as <- _ _;
    (eapply reachable_step; [exact R|apply step_score]).
Qed.

Lemma slice_length (d : list Card) (lo hi : nat) :
  (hi <= length d)%nat -> length (slice d lo hi) = (hi - lo)%nat.
Proof. intros H. unfold slice. rewrite length_seq. lia. Qed.

(** C5: after the deal of a shuffled deck every trump flag is false;
    the first turn of the match, player 1's on the empty table, sets the
    flag of exactly the thirteen cards of the deck that share the suit of
    the card played, before any other turn; and no later operation of the
    match, turn or score, changes the deck. *)
Theorem trump_flags_set_once (deck0 : list Card) :
  shuffled deck0 ->
  Forall (fun c => ato c = false) (deck (prepare_cards deck0))
  /\ (forall input g1 table1 input1,
        player_turn (prepare_cards deck0) (Some 1%nat) [] false input
        = Ok (g1, table1, input1) ->
        exists first,
          table1 = [first]
          /\ (forall c, In c (deck g1) ->
                (ato c = true <-> suit c = suit (deref (deck g1) first)))
          /\ length (filter ato (deck g1)) = 13%nat
          /\ forall g', reachable g1 g' -> deck g' = deck g1)
  /\ (forall fuel input g out,
        start fuel (prepare_cards deck0) input = Some (Ok (g, out)) ->
        exists g1 table1 input1,
          player_turn (prepare_cards deck0) (Some 1%nat) [] false input
          = Ok (g1, table1, input1)
          /\ reachable g1 g).
Proof.
  intros Hsh. destruct (shuffled_facts _ Hsh) as (Hlen & Hato & Hcount).
  assert (Hato0 : Forall (fun c => ato c = false) (deck (prepare_cards deck0))).
  { apply (map_Forall_eq ato (fun b => b = false) _ deck0); [|exact Hato].
    now apply prepare_cards_map. }
  split; [exact Hato0|]. split; [|intros; eapply start_first_turn; eauto].
  intros input g1 table1 input1 H.
  apply player_turn_update in H as (p & played & Hp & Hin & -> & ->).
  assert (Ep : p = player_1 (prepare_cards deck0)).
  { rewrite get_player_prepared in Hp. congruence. }
  assert (H13 : length (cards p) = 13%nat).
  { subst p. simpl. rewrite slice_length; lia. }
  rewrite H13. simpl negb. simpl andb.
  exists played. split; [reflexivity|].
  set (g0 := prepare_cards deck0) in *.
  set (s := suit (deref (deck g0) played)).
  assert (Hd : deck (update g0 (set_ato s (deck g0))
                       (with_cards p (remove_ref played (cards p))))
               = set_ato s (deck g0)) by reflexivity.
  rewrite Hd. split; [|split].
  - intros c Hc. rewrite set_ato_suit. fold s.
    exact (set_ato_flag s (deck g0) Hato0 c Hc).
  - rewrite set_ato_count by exact Hato0.
    rewrite count_suit_map. unfold g0.
    rewrite (prepare_cards_map suit) by reflexivity.
    rewrite <- count_suit_map. apply Hcount.
  - intros g' Hr. apply reachable_deck in Hr; [tauto|].
    destruct (update_player_1 g0 (set_ato s (deck g0))
                (with_cards p (remove_ref played (cards p))))
      as [_ [E|[-> _]]].
    + exfalso. subst p. revert E. unfold update. simpl.
      intros E. apply (f_equal (fun q => length (cards q))) in E.
      simpl in E. pose proof (remove_ref_length _ _ Hin) as Hl.
      simpl in Hl. rewrite slice_length in E, Hl by lia. lia.
    + simpl. pose proof (remove_ref_length _ _ Hin) as Hl. lia.
Qed.

Lemma trump_flags_set_once_witness :
  Forall (fun c => ato c = false) (deck (prepare_cards deck_by_threes))
  /\ exists g1 first input1,
       player_turn (prepare_cards deck_by_threes) (Some 1%nat) [] false
         patient_lines = Ok (g1, [first], input1)
       /\ length (filter ato (deck g1)) = 13%nat.
Proof.
  destruct (trump_flags_set_once deck_by_threes shuffled_by_threes)
    as (H0 & H1 & _).
  split; [exact H0|].
  destruct (player_turn (prepare_cards deck_by_threes) (Some 1%nat) [] false
              patient_lines) as [[[g1 table1] input1]|e] eqn:E.
  - destruct (H1 _ _ _ _ E) as (first & -> & _ & Hc & _).
    exists g1, first, input1. split; [reflexivity|exact Hc].
  - vm_compute in E. discriminate E.
Defined.

(** ** The match: a fault of the automated player *)

Lemma shuffled_by_23s : shuffled deck_by_23s.
Proof. apply rearranged_Permutation. vm_compute. reflexivity. Qed.

(** C3 fails on the code: player 3 holds the 7 of spades as its only
    spade, spades were led and the trick is held by the trump 7 of
    hearts; both searches come back empty and the removal of the absent
    card raises.  A match on a shuffled deck meets the fault in its tenth
    round, when player 4 must follow the queen of spades, trumped by the
    king of hearts, with the king of spades as its only spade. *)
Theorem ai_select_equal_order_fault :
  cards lone_seven <> []
  /\ (length trumped_five <= 3)%nat
  /\ Forall (fun c => owner c <> None) trumped_five
  /\ has lone_seven (lead_suit lone_seven trumped_five) = true
  /\ gr_card lone_seven (lead_suit lone_seven trumped_five)
       (current_winner lone_seven trumped_five) = None
  /\ sm_card lone_seven (lead_suit lone_seven trumped_five)
       (current_winner lone_seven trumped_five) = None
  /\ ai_select lone_seven trumped_five = Raise ValueError
  /\ shuffled deck_by_23s
  /\ start 14 (prepare_cards deck_by_23s) patient_lines
     = Some (Raise ValueError).
Proof.
  split; [discriminate|]. split; [simpl; lia|].
  split; [repeat constructor; discriminate|].
  split; [reflexivity|]. split; [reflexivity|]. split; [reflexivity|].
  split; [reflexivity|]. split; [exact shuffled_by_23s|].
  vm_compute. reflexivity.
Qed.

(** * Further properties of the code *)

(** ** Card.order *)

(** X1: on the ranks [get_deck] deals, [order] lies between 2 and 14 and
    tells the ranks apart: two dealt cards of equal order have the same
    rank. *)
Theorem order_dealt (c1 c2 : Card) :
  dealt_rank (rank c1) -> dealt_rank (rank c2) ->
  2 <= order c1 <= 14
  /\ (order c1 = order c2 -> rank c1 = rank c2).
Proof.
  intros H1 H2. split; [now apply dealt_rank_order|].
  unfold order, dealt_rank in *.
  destruct (rank c1), (rank c2); intros E; try reflexivity; try lia.
  now subst.
Qed.

Lemma order_dealt_witness :
  2 <= order (card_of Q HEARTS 1 false) <= 14
  /\ (order (card_of Q HEARTS 1 false) = order (card_of Q SPADES 2 false) ->
      rank (card_of Q HEARTS 1 false) = rank (card_of Q SPADES 2 false)).
Proof. apply order_dealt; exact I. Defined.

(** ** Player.get_suit and Player.has *)

Lemma insert_by_order_Permutation (c : Card) (l : list Card) :
  Permutation (c :: l) (insert_by_order c l).
Proof.
  induction l as [|x l IH]; simpl; [apply Permutation_refl|].
  destruct (order c <=? order x); [apply Permutation_refl|].
  rewrite perm_swap. now constructor.
Qed.

Lemma sort_by_order_Permutation (l : list Card) :
  Permutation l (sort_by_order l).
Proof.
  induction l as [|x l IH]; simpl; [constructor|].
  rewrite <- insert_by_order_Permutation. now constructor.
Qed.

(** X2: [get_suit] returns exactly the cards of the hand that have the
    suit asked for, each as often as the hand holds it, in ascending
    order; it is empty exactly when [has] answers no. *)
Theorem get_suit_sorted (self : Player Card) (s : Suit) :
  Permutation (filter (fun c => Suit_eqb (suit c) s) (cards self))
              (get_suit self s)
  /\ ascending (get_suit self s)
  /\ (forall c, In c (get_suit self s) <-> In c (cards self) /\ suit c = s)
  /\ (has self s = false <-> get_suit self s = []).
Proof.
  split; [apply sort_by_order_Permutation|].
  split; [apply get_suit_ascending|].
  split; [intro c; apply get_suit_In|].
  split.
  - intros Hh. destruct (get_suit self s) as [|c l] eqn:E; [reflexivity|].
    assert (Hin : In c (get_suit self s)) by (rewrite E; now left).
    apply get_suit_In in Hin.
    assert (has self s = true) by (apply has_In; eauto). congruence.
  - intros E. destruct (has self s) eqn:Hh; [|reflexivity].
    apply has_In in Hh as (c & Hc & Hs).
    assert (Hin : In c (get_suit self s)) by now apply get_suit_In.
    rewrite E in Hin. destruct Hin.
Qed.

(** ** West.winner_card *)

(** The outcome of one challenge, by the flags of the two cards. *)
Lemma challenge_by_flags (w x : Card) :
  (suit x = suit w -> ato x = ato w) ->
  challenge w x
  = match ato w, ato x with
    | true, true => if order x >? order w then x else w
    | true, false => w
    | false, true => x
    | false, false =>
        if (order x >? order w) && Suit_eqb (suit x) (suit w) then x else w
    end.
Proof.
  intros Hs. unfold challenge.
  destruct (ato w) eqn:Haw, (ato x) eqn:Hax;
    destruct (order x >? order w); simpl; try reflexivity;
    destruct (Suit_eqb (suit x) (suit w)) eqn:E; try reflexivity;
    apply Suit_eqb_eq in E; specialize (Hs E); congruence.
Qed.

(** What one challenge keeps true of the winner over the cards [seen],
    when same-suit cards carry the same flag: a flagged winner is the
    highest trump seen; an unflagged winner means no trump was seen, and
    is the highest card seen of the lead suit. *)
Lemma challenge_highest (lead : Suit) (seen : list Card) (w x : Card) :
  (suit x = suit w -> ato x = ato w) ->
  In w seen ->
  (ato w = true ->
   forall c, In c seen -> ato c = true -> order c <= order w) ->
  (ato w = false ->
   (forall c, In c seen -> ato c = false) /\ suit w = lead
   /\ forall c, In c seen -> suit c = lead -> order c <= order w) ->
  In (challenge w x) (seen ++ [x])
  /\ (ato (challenge w x) = true ->
      forall c, In c (seen ++ [x]) -> ato c = true ->
                order c <= order (challenge w x))
  /\ (ato (challenge w x) = false ->
      (forall c, In c (seen ++ [x]) -> ato c = false)
      /\ suit (challenge w x) = lead
      /\ forall c, In c (seen ++ [x]) -> suit c = lead ->
                   order c <= order (challenge w x)).
Proof.
  intros Hs Hin Ht Hn.
  assert (Hsn : forall c, In c (seen ++ [x]) -> In c seen \/ c = x).
  { intros c Hc. apply in_app_iff in Hc as [Hc|[<-|[]]]; auto. }
  split.
  { destruct (challenge_cases w x) as [E|E]; rewrite E; apply in_or_app;
      [right|left]; auto using in_eq. }
  rewrite (challenge_by_flags w x Hs).
  destruct (ato w) eqn:Haw, (ato x) eqn:Hax.
  - specialize (Ht eq_refl).
    destruct (order x >? order w) eqn:G;
      [apply Z.gtb_gt in G|rewrite Z.gtb_ltb, Z.ltb_ge in G];
      (split; [intros _ c Hc Hac|congruence]);
      destruct (Hsn c Hc) as [Hc'| ->]; try lia;
      specialize (Ht c Hc' Hac); lia.
  - specialize (Ht eq_refl). split; [intros _ c Hc Hac|congruence].
    destruct (Hsn c Hc) as [Hc'| ->]; [auto|congruence].
  - destruct (Hn eq_refl) as (Hn1 & _). split; [intros _ c Hc Hac|congruence].
    destruct (Hsn c Hc) as [Hc'| ->]; [|lia].
    specialize (Hn1 c Hc'). congruence.
  - destruct (Hn eq_refl) as (Hn1 & Hn2 & Hn3).
    assert (Hall : forall c, In c (seen ++ [x]) -> ato c = false).
    { intros c Hc. destruct (Hsn c Hc) as [Hc'| ->]; auto. }
    destruct (order x >? order w) eqn:G;
      [apply Z.gtb_gt in G|rewrite Z.gtb_ltb, Z.ltb_ge in G];
      destruct (Suit_eqb (suit x) (suit w)) eqn:E;
      [apply Suit_eqb_eq in E|apply Suit_eqb_neq in E
      |apply Suit_eqb_eq in E|apply Suit_eqb_neq in E]; simpl;
      (split; [congruence|]); intros _;
      (split; [exact Hall|]); (split; [congruence|]);
      intros c Hc Hcs; destruct (Hsn c Hc) as [Hc'| ->];
      try (specialize (Hn3 c Hc' Hcs); lia); try lia; congruence.
Qed.

Lemma fold_challenge_highest (lead : Suit) (l seen : list Card) (w : Card) :
  (forall c c', In c (seen ++ l) -> In c' (seen ++ l) ->
                suit c = suit c' -> ato c = ato c') ->
  In w seen ->
  (ato w = true ->
   forall c, In c seen -> ato c = true -> order c <= order w) ->
  (ato w = false ->
   (forall c, In c seen -> ato c = false) /\ suit w = lead
   /\ forall c, In c seen -> suit c = lead -> order c <= order w) ->
  In (fold_left challenge l w) (seen ++ l)
  /\ (ato (fold_left challenge l w) = true ->
      forall c, In c (seen ++ l) -> ato c = true ->
                order c <= order (fold_left challenge l w))
  /\ (ato (fold_left challenge l w) = false ->
      (forall c, In c (seen ++ l) -> ato c = false)
      /\ suit (fold_left challenge l w) = lead
      /\ forall c, In c (seen ++ l) -> suit c = lead ->
                   order c <= order (fold_left challenge l w)).
Proof.
  revert seen w. induction l as [|x l IH]; intros seen w Hflag Hin Ht Hn.
  - simpl. rewrite app_nil_r. auto.
  - simpl fold_left.
    replace (seen ++ x :: l) with ((seen ++ [x]) ++ l) in *
      by now rewrite <- app_assoc.
    assert (Hs : suit x = suit w -> ato x = ato w).
    { apply Hflag; apply in_or_app; left; apply in_or_app;
        [right; now left|now left]. }
    destruct (challenge_highest lead seen w x Hs Hin Ht Hn) as (S1 & S2 & S3).
    now apply IH.
Qed.

(** X3: when cards of one suit carry the same flag, as in play,
    [winner_card] returns a card of the table that is: the highest trump
    of the table when the table holds a trump; the highest card of the
    lead suit when it holds none. *)
Theorem winner_card_highest (first : Card) (rest : list Card) (w : Card) :
  trump_by_suit (first :: rest) ->
  winner_card (first :: rest) = Ok w ->
  In w (first :: rest)
  /\ ((exists c, In c (first :: rest) /\ ato c = true) ->
      ato w = true
      /\ forall c, In c (first :: rest) -> ato c = true ->
                   order c <= order w)
  /\ ((forall c, In c (first :: rest) -> ato c = false) ->
      suit w = suit first
      /\ forall c, In c (first :: rest) -> suit c = suit first ->
                   order c <= order w).
Proof.
  intros Hflag Hw. rewrite winner_card_resolve in Hw.
  rewrite <- fold_challenge_resolve in Hw.
  assert (E : fold_left challenge rest first = w) by congruence. clear Hw.
  destruct (fold_challenge_highest (suit first) rest [first] first)
    as (H1 & H2 & H3).
  - exact Hflag.
  - now left.
  - intros _ c [<-|[]] _. lia.
  - intros Ha. split; [intros c [<-|[]]; exact Ha|].
    split; [reflexivity|]. intros c [<-|[]] _. lia.
  - rewrite E in *. simpl app in *. split; [exact H1|]. split.
    + intros (c & Hc & Hac). destruct (ato w) eqn:Haw; [auto|].
      destruct (H3 eq_refl) as (Hnone & _).
      specialize (Hnone c Hc). congruence.
    + intros Hnone. destruct (ato w) eqn:Haw.
      * specialize (Hnone w H1). congruence.
      * destruct (H3 eq_refl) as (_ & Hs & Hmax). auto.
Qed.

Lemma winner_card_highest_witness :
  ato (card_of A DIAMONDS 3 true) = true
  /\ forall c, In c table_trump_ace -> ato c = true ->
               order c <= order (card_of A DIAMONDS 3 true).
Proof.
  apply (winner_card_highest _ _ _ trump_by_suit_trump_ace eq_refl).
  exists (card_of A DIAMONDS 3 true). split; [simpl; auto|reflexivity].
Defined.

(** ** Player.ai_select *)

Lemma play_Ok (self : Player Card) (c0 c : Card) (p' : Player Card) :
  play self (Some c0) = Ok (c, p') ->
  c = c0
  /\ exists rest, remove_card c (cards self) = Ok rest
                  /\ p' = with_cards self rest.
Proof.
  unfold play. intros H. inv_bind H. injection H as <- <-.
  split; [reflexivity|]. now exists a.
Qed.

(** Whatever [ai_select] returns went through [self.cards.remove]. *)
Lemma ai_select_play (self : Player Card) (table : list Card)
  (c : Card) (p' : Player Card) :
  ai_select self table = Ok (c, p') ->
  play self (Some c) = Ok (c, p').
Proof.
  intros H. destruct (has self (lead_suit self table)) eqn:Hh.
  - rewrite (ai_select_follow self table Hh) in H.
    destruct (follow_suit_cases self (lead_suit self table)
                (current_winner self table))
      as [(c0 & _ & E)|(_ & _ & E)]; [|congruence].
    rewrite E in H. destruct (play_Ok _ _ _ _ H) as [-> _]. exact H.
  - unfold ai_select in H. rewrite Hh in H.
    destruct (cards self) as [|c0 hand]; [discriminate|].
    destruct (play_Ok _ _ _ _ H) as [-> _]. exact H.
Qed.

(** X4: the card [ai_select] returns is taken out of the hand and
    nothing else changes: the old hand is the card returned together
    with the new hand, and name, seat and teammate stay. *)
Theorem ai_select_removes (self : Player Card) (table : list Card)
  (c : Card) (p' : Player Card) :
  ai_select self table = Ok (c, p') ->
  Permutation (cards self) (c :: cards p')
  /\ length (cards self) = S (length (cards p'))
  /\ name p' = name self /\ turn p' = turn self
  /\ teammate p' = teammate self.
Proof.
  intros H. apply ai_select_play, play_Ok in H as (_ & rest & Hr & ->).
  apply remove_card_Permutation in Hr. simpl.
  split; [exact Hr|]. split; [|auto].
  now rewrite (Permutation_length Hr).
Qed.

Lemma ai_select_removes_witness :
  Permutation (cards spade_holder)
    (card_of (Num 9) SPADES 2 false
     :: [card_of (Num 3) SPADES 2 false; card_of J CLUBS 2 false]).
Proof.
  apply (ai_select_removes spade_holder six_led
           (card_of (Num 9) SPADES 2 false)
           (with_cards spade_holder
              [card_of (Num 3) SPADES 2 false; card_of J CLUBS 2 false])
           eq_refl).
Defined.

(** X5: a player that holds the suit led never plays another suit:
    whatever [ai_select] returns then is a card of the hand of the suit
    of the first card of the table. *)
Theorem ai_select_follows_suit (self : Player Card) (first : Card)
  (rest : list Card) (c : Card) (p' : Player Card) :
  has self (suit first) = true ->
  ai_select self (first :: rest) = Ok (c, p') ->
  In c (cards self) /\ suit c = suit first.
Proof.
  intros Hh H.
  rewrite (ai_select_follow self (first :: rest) Hh) in H.
  destruct (follow_suit_cases self (lead_suit self (first :: rest))
              (current_winner self (first :: rest)))
    as [(c0 & Hc & E)|(_ & _ & E)]; [|congruence].
  rewrite E in H. destruct (play_Ok _ _ _ _ H) as [-> _].
  destruct Hc as [Hc|Hc];
    [apply gr_card_Some in Hc|apply sm_card_Some in Hc];
    destruct Hc as (Hin & Hs & _); auto.
Qed.

Lemma ai_select_follows_suit_witness :
  In (card_of (Num 9) SPADES 2 false) (cards spade_holder)
  /\ suit (card_of (Num 9) SPADES 2 false)
     = suit (card_of (Num 6) SPADES 1 false).
Proof.
  exact (ai_select_follows_suit spade_holder
           (card_of (Num 6) SPADES 1 false) []
           (card_of (Num 9) SPADES 2 false)
           (with_cards spade_holder
              [card_of (Num 3) SPADES 2 false; card_of J CLUBS 2 false])
           eq_refl eq_refl).
Defined.

(** X6: [ai_select] raises in two cases only: [IndexError] on an empty
    hand, and [ValueError] on a non-empty hand that holds the suit to
    follow with every card of that suit at the order of the current
    winner. *)
Theorem ai_select_raises (self : Player Card) (table : list Card) (e : Exn) :
  ai_select self table = Raise e
  <-> (cards self = [] /\ e = IndexError)
      \/ (cards self <> [] /\ e = ValueError
          /\ has self (lead_suit self table) = true
          /\ forall c, In c (cards self) -> suit c = lead_suit self table ->
                       order c = order (current_winner self table)).
Proof.
  split.
  - intros H. destruct (cards self) as [|c0 hand] eqn:Ec.
    + left. split; [reflexivity|]. unfold ai_select in H.
      rewrite Ec in H. congruence.
    + right. split; [discriminate|]. rewrite <- Ec.
      destruct (proj1 (ai_select_fault_iff self table))
        as [E|[Hh Hall]]; [eauto|congruence|].
      split; [|auto]. rewrite (ai_select_follow self table Hh) in H.
      destruct (follow_suit_cases self (lead_suit self table)
                  (current_winner self table))
        as [(c & Hc & E)|(_ & _ & E)]; [|congruence].
      destruct Hc as [Hc|Hc];
        [apply gr_card_Some in Hc|apply sm_card_Some in Hc];
        destruct Hc as (Hin & Hs & Hlt & _);
        specialize (Hall c Hin Hs); lia.
  - intros [[Ec ->]|(Hne & -> & Hh & Hall)].
    + unfold ai_select. now rewrite Ec.
    + rewrite (ai_select_follow self table Hh).
      destruct (follow_suit_cases self (lead_suit self table)
                  (current_winner self table))
        as [(c & Hc & E)|(_ & _ & E)]; [|exact E].
      destruct Hc as [Hc|Hc];
        [apply gr_card_Some in Hc|apply sm_card_Some in Hc];
        destruct Hc as (Hin & Hs & Hlt & _);
        specialize (Hall c Hin Hs); lia.
Qed.

(** The winner after one more card. *)
Lemma winner_card_snoc (self : Player Card) (first : Card)
  (rest : list Card) (c : Card) :
  winner_card ((first :: rest) ++ [c])
  = Ok (challenge (current_winner self (first :: rest)) c).
Proof.
  unfold winner_card, current_winner, provisional. cbn [app fold_left].
  rewrite fold_left_app. reflexivity.
Qed.

(** X7: the player takes the trick when it can and should.  When it
    holds the suit led, the current winner is of that suit and not the
    teammate's, and some card of the suit in hand is above the winner,
    [ai_select] plays the lowest such card, and with that card on the
    table [winner_card] returns it. *)
Theorem ai_select_takes_trick (self : Player Card) (first : Card)
  (rest : list Card) :
  not_teammates self (current_winner self (first :: rest)) = true ->
  suit (current_winner self (first :: rest)) = suit first ->
  (exists x, In x (cards self) /\ suit x = suit first
             /\ order (current_winner self (first :: rest)) < order x) ->
  exists c p',
    ai_select self (first :: rest) = Ok (c, p')
    /\ In c (cards self) /\ suit c = suit first
    /\ order (current_winner self (first :: rest)) < order c
    /\ (forall x, In x (cards self) -> suit x = suit first ->
                  order (current_winner self (first :: rest)) < order x ->
                  order c <= order x)
    /\ winner_card ((first :: rest) ++ [c]) = Ok c.
Proof.
  intros Hnt Hws (x & Hx & Hxs & Hxo).
  set (w := current_winner self (first :: rest)) in *.
  assert (Hh : has self (lead_suit self (first :: rest)) = true).
  { apply has_In. exists x. auto. }
  destruct (gr_card self (suit first) w) as [g|] eqn:Hg.
  - pose proof (gr_card_Some _ _ _ _ Hg) as (Hin & Hs & Hlt & Hmin).
    destruct (play_In self g Hin) as (rest' & _ & Hp).
    exists g, (with_cards self rest').
    split.
    + rewrite (ai_select_follow self (first :: rest) Hh).
      change (lead_suit self (first :: rest)) with (suit first).
      fold w. unfold follow_suit. rewrite Hg, Hnt, Hs, Hws, Suit_eqb_refl.
      exact Hp.
    + repeat split; auto.
      rewrite (winner_card_snoc self). fold w. unfold challenge.
      assert (G : (order g >? order w) = true) by (apply Z.gtb_gt; lia).
      now rewrite G, Hs, Hws, Suit_eqb_refl.
  - pose proof (proj1 (gr_card_None _ _ _) Hg x Hx Hxs). lia.
Qed.

Lemma ai_select_takes_trick_witness :
  exists c p',
    ai_select spade_holder six_led = Ok (c, p')
    /\ winner_card (six_led ++ [c]) = Ok c.
Proof.
  destruct (ai_select_takes_trick spade_holder
              (card_of (Num 6) SPADES 1 false) [] eq_refl eq_refl)
    as (c & p' & E & _ & _ & _ & _ & Hw).
  - exists (card_of (Num 9) SPADES 2 false).
    split; [simpl; auto|]. split; [reflexivity|]. simpl. unfold order.
    simpl. lia.
  - exists c, p'. split; [exact E|exact Hw].
Defined.

(** X8: the player does not take the trick from its partner.  When it
    holds the suit led, the current winner is the teammate's or is not
    of the suit led, and some card of the suit in hand is below the
    winner, [ai_select] plays the lowest card of the suit in hand; and
    if that card is trump only when the winner is, [winner_card] with
    that card on the table still returns the previous winner. *)
Theorem ai_select_ducks (self : Player Card) (first : Card)
  (rest : list Card) :
  not_teammates self (current_winner self (first :: rest)) = false
  \/ suit (current_winner self (first :: rest)) <> suit first ->
  (exists x, In x (cards self) /\ suit x = suit first
             /\ order x < order (current_winner self (first :: rest))) ->
  exists c p',
    ai_select self (first :: rest) = Ok (c, p')
    /\ In c (cards self) /\ suit c = suit first
    /\ order c < order (current_winner self (first :: rest))
    /\ (forall x, In x (cards self) -> suit x = suit first ->
                  order c <= order x)
    /\ ((ato c = true -> ato (current_winner self (first :: rest)) = true) ->
        winner_card ((first :: rest) ++ [c])
        = Ok (current_winner self (first :: rest))).
Proof.
  intros Hno (x & Hx & Hxs & Hxo).
  set (w := current_winner self (first :: rest)) in *.
  assert (Hh : has self (lead_suit self (first :: rest)) = true).
  { apply has_In. exists x. auto. }
  destruct (sm_card self (suit first) w) as [m|] eqn:Hm.
  - pose proof (sm_card_Some _ _ _ _ Hm) as (Hin & Hs & Hlt & Hmin).
    destruct (play_In self m Hin) as (rest' & _ & Hp).
    exists m, (with_cards self rest').
    split.
    + rewrite (ai_select_follow self (first :: rest) Hh).
      change (lead_suit self (first :: rest)) with (suit first).
      fold w. unfold follow_suit. rewrite Hm.
      destruct (gr_card self (suit first) w) as [g|] eqn:Hg; [|exact Hp].
      apply gr_card_Some in Hg as (_ & Hgs & _).
      replace (not_teammates self w && Suit_eqb (suit g) (suit w))
        with false; [exact Hp|].
      destruct Hno as [->|Hne]; [reflexivity|].
      rewrite Hgs. apply not_eq_sym, Suit_eqb_neq in Hne. rewrite Hne.
      now rewrite andb_false_r.
    + repeat split; auto.
      intros Hflag. rewrite (winner_card_snoc self). fold w.
      unfold challenge.
      assert (G : (order m >? order w) = false)
        by (rewrite Z.gtb_ltb; apply Z.ltb_ge; lia).
      rewrite G. simpl.
      destruct (ato m); [|reflexivity]. now rewrite Hflag.
  - pose proof (proj1 (sm_card_None _ _ _) Hm x Hx Hxs). lia.
Qed.

Lemma ai_select_ducks_witness :
  exists c p',
    ai_select (mkPlayer 3 2 (cards low_spades) (Some 1%nat)) six_led
    = Ok (c, p')
    /\ winner_card (six_led ++ [c])
       = Ok (card_of (Num 6) SPADES 1 false).
Proof.
  destruct (ai_select_ducks (mkPlayer 3 2 (cards low_spades) (Some 1%nat))
              (card_of (Num 6) SPADES 1 false) [])
    as (c & p' & E & _ & _ & _ & _ & Hw).
  - left. reflexivity.
  - exists (card_of (Num 5) SPADES 2 false).
    split; [simpl; auto|]. split; [reflexivity|]. simpl. unfold order.
    simpl. lia.
  - exists c, p'. split; [exact E|]. apply Hw.
    cbv in E. injection E as <- _. discriminate.
Defined.

(** X9: the player trumps in.  When it holds no card of the suit led,
    the current winner is neither trump nor the teammate's, and the hand
    holds a trump of another suit than the winner's, [ai_select] plays
    the first trump of the hand in hand order, and [winner_card] with
    that card on the table returns it. *)
Theorem ai_select_trumps_in (self : Player Card) (first : Card)
  (rest : list Card) (t : Card) :
  has self (suit first) = false ->
  not_teammates self (current_winner self (first :: rest)) = true ->
  ato (current_winner self (first :: rest)) = false ->
  (forall x, In x (cards self) -> ato x = true ->
             suit x <> suit (current_winner self (first :: rest))) ->
  find ato (cards self) = Some t ->
  exists p',
    ai_select self (first :: rest) = Ok (t, p')
    /\ winner_card ((first :: rest) ++ [t]) = Ok t.
Proof.
  intros Hh Hnt Haw Hsuit Ht.
  set (w := current_winner self (first :: rest)) in *.
  pose proof (find_some _ _ Ht) as [Hin Hat].
  assert (Hne : cards self <> []) by (intros E; rewrite E in Hin; destruct Hin).
  destruct (ai_select_discards self (first :: rest) Hne Hh)
    as (c & rest' & E & _ & Hc & Hd).
  fold w in Hd.
  assert (Hov : forall x, In x (cards self) -> overtakes self w x = ato x).
  { intros x Hx. unfold overtakes. rewrite Hnt.
    destruct (ato x) eqn:Hax; [|reflexivity]. simpl.
    specialize (Hsuit x Hx Hax). apply Suit_eqb_neq in Hsuit.
    now rewrite Hsuit. }
  assert (Ect : c = t).
  { destruct Hd as [(l1 & l2 & Hs & Ho & Hf)|(Hf & _)].
    - rewrite Hs in Ht, Hov. clear Hs.
      induction l1 as [|y l1 IH]; simpl in Ht.
      + rewrite Hov in Ho by now left. rewrite Ho in Ht. congruence.
      + inversion Hf as [|? ? Hy Hf']; subst.
        rewrite Hov in Hy by now left. rewrite Hy in Ht.
        apply IH; auto. intros x Hx. apply Hov. now right.
    - rewrite Forall_forall in Hf. specialize (Hf t Hin).
      rewrite Hov in Hf by exact Hin. congruence. }
  subst c. exists (with_cards self rest'). split; [exact E|].
  rewrite (winner_card_snoc self). fold w.
  rewrite (challenge_by_flags w t).
  - now rewrite Haw, Hat.
  - intros Hs. specialize (Hsuit t Hin Hat). congruence.
Qed.

Lemma ai_select_trumps_in_witness :
  exists p',
    ai_select low_trump [card_of (Num 4) SPADES 4 false;
                         card_of K SPADES 1 false]
    = Ok (card_of (Num 3) HEARTS 2 true, p').
Proof.
  destruct (ai_select_trumps_in low_trump (card_of (Num 4) SPADES 4 false)
              [card_of K SPADES 1 false] (card_of (Num 3) HEARTS 2 true))
    as (p' & E & _); try reflexivity.
  - intros x [<-|[<-|[]]]; simpl; intros; discriminate.
  - exists p'. exact E.
Defined.

(** ** PokerGame.get_deck *)

Lemma fresh_deck_NoDup :
  NoDup (map (fun c => (rank c, suit c)) fresh_deck).
Proof.
  assert (E : nodup RankSuit_eq_dec (map (fun c => (rank c, suit c)) fresh_deck)
              = map (fun c => (rank c, suit c)) fresh_deck)
    by (vm_compute; reflexivity).
  rewrite <- E. apply NoDup_nodup.
Qed.

(** X10: whatever the shuffle, the deck [get_deck] returns holds
    fifty-two cards, no two of the same rank and suit, thirteen of each
    suit, one for every rank and suit, all without owner and without
    trump flag. *)
Theorem get_deck_pack (d : list Card) :
  shuffled d ->
  length d = 52%nat
  /\ NoDup (map (fun c => (rank c, suit c)) d)
  /\ (forall s, length (filter (fun c => Suit_eqb (suit c) s) d) = 13%nat)
  /\ (forall r s, In r ranks -> In (mkCard r s None false) d)
  /\ (forall c, In c d ->
        In (rank c) ranks /\ owner c = None /\ ato c = false).
Proof.
  intros H. destruct (shuffled_facts d H) as (Hl & _ & Hc).
  split; [exact Hl|]. split; [|split; [exact Hc|split]].
  - apply (Permutation_NoDup (Permutation_map _ H)), fresh_deck_NoDup.
  - intros r s Hr. apply (Permutation_in _ H).
    unfold fresh_deck. apply in_flat_map. exists s.
    split; [destruct s; simpl; auto|].
    apply in_map_iff. now exists r.
  - intros c Hin. apply (Permutation_in _ (Permutation_sym H)) in Hin.
    revert c Hin. apply Forall_forall.
    unfold fresh_deck, ranks. simpl.
    repeat (constructor;
            [split; [simpl; repeat (try (left; reflexivity); right)
                    |split; reflexivity]|]).
    constructor.
Qed.

Lemma get_deck_pack_witness :
  length deck_by_threes = 52%nat
  /\ NoDup (map (fun c => (rank c, suit c)) deck_by_threes).
Proof.
  destruct (get_deck_pack deck_by_threes shuffled_by_threes) as (H1 & H2 & _).
  split; [exact H1|exact H2].
Defined.

(** ** West.prepare_cards *)

Lemma update_from_length (f : CardRef -> Card -> Card) (d : list Card)
  (i : nat) : length (update_from i f d) = length d.
Proof. revert i. induction d; intro i; simpl; auto. Qed.

Lemma update_from_nth (f : CardRef -> Card -> Card) (d : list Card)
  (i r : nat) (dflt : Card) :
  (r < length d)%nat ->
  nth r (update_from i f d) dflt = f (i + r)%nat (nth r d dflt).
Proof.
  revert i r. induction d as [|c d IH]; intros i r Hr; simpl in *; [lia|].
  destruct r as [|r].
  - now rewrite Nat.add_0_r.
  - rewrite IH by lia. f_equal. lia.
Qed.

Lemma existsb_seq (r lo n : nat) :
  existsb (Nat.eqb r) (seq lo n) = ((lo <=? r) && (r <? lo + n))%nat.
Proof.
  revert lo. induction n as [|n IH]; intro lo; simpl.
  - destruct (Nat.leb_spec lo r), (Nat.ltb_spec r (lo + 0)); simpl; auto; lia.
  - rewrite IH.
    destruct (Nat.eqb_spec r lo), (Nat.leb_spec lo r),
      (Nat.leb_spec (S lo) r), (Nat.ltb_spec r (S lo + n)),
      (Nat.ltb_spec r (lo + S n)); simpl; auto; lia.
Qed.

Lemma set_owner_length (p : PlayerId) (refs : list CardRef) (d : list Card) :
  length (set_owner p refs d) = length d.
Proof. apply update_from_length. Qed.

Lemma set_owner_owner (p : PlayerId) (lo n : nat) (d : list Card) (r : nat) :
  (r < length d)%nat ->
  owner (deref (set_owner p (seq lo n) d) r)
  = if ((lo <=? r) && (r <? lo + n))%nat then Some p
    else owner (deref d r).
Proof.
  intros Hr. unfold deref, set_owner. rewrite update_from_nth by exact Hr.
  simpl. rewrite existsb_seq. now destruct (_ && _).
Qed.

Lemma prepare_cards_hands (d : list Card) :
  length d = 52%nat ->
  cards (player_1 (prepare_cards d)) = seq 0 13
  /\ cards (player_2 (prepare_cards d)) = seq 13 13
  /\ cards (player_3 (prepare_cards d)) = seq 26 13
  /\ cards (player_4 (prepare_cards d)) = seq 39 13.
Proof.
  intros Hl. unfold prepare_cards, slice. simpl. now rewrite Hl.
Qed.

Lemma prepare_cards_dealt (d : list Card) : dealt_players (prepare_cards d).
Proof. repeat split. Qed.

Lemma prepare_cards_owned (d : list Card) :
  length d = 52%nat -> owned_hands (prepare_cards d).
Proof.
  intros Hl. destruct (prepare_cards_hands d Hl) as (H1 & H2 & H3 & H4).
  intros k r Hin.
  assert (Hk : ((k = 1 /\ 0 <= r < 13) \/ (k = 2 /\ 13 <= r < 26)
                \/ (k = 3 /\ 26 <= r < 39) \/ (k = 4 /\ 39 <= r < 52))%nat).
  { unfold hand, get_player in Hin. simpl name in Hin.
    destruct k as [|[|[|[|[|k]]]]]; simpl Nat.eqb in Hin; cbv iota in Hin;
      try contradiction;
      [rewrite H1 in Hin|rewrite H2 in Hin|rewrite H3 in Hin
      |rewrite H4 in Hin]; apply in_seq in Hin; lia. }
  assert (S1 : slice d 0 13 = seq 0 13) by (unfold slice; now rewrite Hl).
  assert (S2 : slice d 13 26 = seq 13 13) by (unfold slice; now rewrite Hl).
  assert (S3 : slice d 26 39 = seq 26 13) by (unfold slice; now rewrite Hl).
  assert (S4 : slice d 39 52 = seq 39 13) by (unfold slice; now rewrite Hl).
  unfold prepare_cards. simpl deck.
  change (13 * 2)%nat with 26%nat. change (13 * 3)%nat with 39%nat.
  change (13 * 4)%nat with 52%nat. rewrite S1, S2, S3, S4.
  rewrite !set_owner_owner by (rewrite ?set_owner_length; lia).
  destruct Hk as [[-> Hr]|[[-> Hr]|[[-> Hr]|[-> Hr]]]];
    repeat match goal with
      | |- context [(?a <=? ?b)%nat] => destruct (Nat.leb_spec a b); try lia
      | |- context [(?a <? ?b)%nat] => destruct (Nat.ltb_spec a b); try lia
      end; simpl; try reflexivity.
Qed.

(** X11: the deal of a deck of fifty-two cards.  The four hands are the
    four runs of thirteen consecutive cards of the deck, in the order of
    the players; every card carries the name of the player whose hand
    it is in; ranks, suits and flags are those of the deck; players 1
    and 3, and 2 and 4, are each other's teammate; both scores are 0. *)
Theorem prepare_cards_deal (d : list Card) :
  length d = 52%nat ->
  cards (player_1 (prepare_cards d)) = seq 0 13
  /\ cards (player_2 (prepare_cards d)) = seq 13 13
  /\ cards (player_3 (prepare_cards d)) = seq 26 13
  /\ cards (player_4 (prepare_cards d)) = seq 39 13
  /\ dealt_players (prepare_cards d)
  /\ owned_hands (prepare_cards d)
  /\ map (fun c => (rank c, suit c, ato c)) (deck (prepare_cards d))
     = map (fun c => (rank c, suit c, ato c)) d
  /\ t1_points (prepare_cards d) = 0 /\ t2_points (prepare_cards d) = 0.
Proof.
  intros Hl. destruct (prepare_cards_hands d Hl) as (H1 & H2 & H3 & H4).
  split; [exact H1|]. split; [exact H2|]. split; [exact H3|].
  split; [exact H4|]. split; [apply prepare_cards_dealt|].
  split; [now apply prepare_cards_owned|].
  split; [now apply prepare_cards_map|split; reflexivity].
Qed.

Lemma prepare_cards_deal_witness :
  cards (player_1 (prepare_cards deck_by_threes)) = seq 0 13
  /\ owned_hands (prepare_cards deck_by_threes).
Proof.
  destruct (prepare_cards_deal deck_by_threes eq_refl)
    as (H1 & _ & _ & _ & _ & H6 & _).
  split; [exact H1|exact H6].
Defined.

(** ** Player.get_card and Player.player_select *)

Lemma Rank_eqb_eq (a b : Rank) : Rank_eqb a b = true <-> a = b.
Proof.
  unfold Rank_eqb. destruct (Rank_eq_dec a b); split; congruence.
Qed.

Lemma get_card_Some (deck : list Card) (self : Player CardRef)
  (r : Rank) (s : Suit) (c : CardRef) :
  get_card deck self r s = Some c ->
  In c (cards self) /\ rank (deref deck c) = r /\ suit (deref deck c) = s.
Proof.
  unfold get_card. intros H. apply find_some in H as [Hin H].
  apply andb_true_iff in H as [Hr Hs].
  apply Rank_eqb_eq in Hr. apply Suit_eqb_eq in Hs. auto.
Qed.

(** X12: [player_select] skips every line that does not parse or names
    no card of the hand, and answers the first line that names one: the
    card returned is in the hand, has the rank and suit of that line, and
    leaves the hand; the lines after it stay unread.  It never returns
    exactly when every line is rejected. *)
Theorem player_select_first_valid (deck : list Card) (self : Player CardRef)
  (input : list Line) :
  (forall c p' rest,
      player_select deck self input = Ok (c, p', rest) ->
      exists skipped r s,
        input = skipped ++ Some (r, s) :: rest
        /\ Forall (rejected deck self) skipped
        /\ In c (cards self)
        /\ rank (deref deck c) = r /\ suit (deref deck c) = s
        /\ p' = with_cards self (remove_ref c (cards self)))
  /\ (forall e,
        player_select deck self input = Raise e <->
        e = NoInput /\ Forall (rejected deck self) input).
Proof.
  induction input as [|line input [IH1 IH2]]; simpl.
  - split; [discriminate|]. intros e. split.
    + intros [= <-]. split; [reflexivity|constructor].
    + intros [-> _]. reflexivity.
  - destruct line as [[r s]|].
    + destruct (get_card deck self r s) as [c0|] eqn:Eg.
      * split.
        -- intros c p' rest [= <- <- <-].
           exists [], r, s. apply get_card_Some in Eg as (Hin & Hr & Hs).
           repeat split; auto.
        -- intros e. split; [discriminate|].
           intros [_ Hf]. inversion Hf as [|? ? Hrej _]; subst.
           simpl in Hrej. congruence.
      * split.
        -- intros c p' rest H.
           destruct (IH1 c p' rest H) as (sk & r' & s' & -> & Hf & Hrest).
           exists (Some (r, s) :: sk), r', s'.
           split; [reflexivity|]. split; [|exact Hrest].
           constructor; [exact Eg|exact Hf].
        -- intros e. rewrite IH2. split; intros [-> Hf];
             (split; [reflexivity|]).
           ++ constructor; [exact Eg|exact Hf].
           ++ now inversion Hf.
    + split.
      * intros c p' rest H.
        destruct (IH1 c p' rest H) as (sk & r' & s' & -> & Hf & Hrest).
        exists (None :: sk), r', s'.
        split; [reflexivity|]. split; [|exact Hrest].
        constructor; [exact I|exact Hf].
      * intros e. rewrite IH2. split; intros [-> Hf];
          (split; [reflexivity|]).
        -- constructor; [exact I|exact Hf].
        -- now inversion Hf.
Qed.

(** ** West.player_turn *)

Lemma set_ato_owner (s : Suit) (d : list Card) (r : CardRef) :
  owner (deref (set_ato s d) r) = owner (deref d r)
  /\ rank (deref (set_ato s d) r) = rank (deref d r).
Proof.
  unfold deref, set_ato. revert r.
  induction d as [|c d IH]; intros [|r]; simpl; auto.
  destruct (Suit_eqb (suit c) s); auto.
Qed.

Lemma remove_ref_incl (x : CardRef) (l : list CardRef) (y : CardRef) :
  In y (remove_ref x l) -> In y l.
Proof.
  induction l as [|z l IH]; simpl; [auto|].
  destruct (Nat.eqb x z); [auto|]. intros [H|H]; auto.
Qed.

(** A turn among the dealt players: the player named stays one of the
    four, gives one card of its hand to the table, and no other hand
    changes. *)
Lemma player_turn_hand (g : West) (k : PlayerId) (table : list CardRef)
  (ai : bool) (input : list Line) (g' : West) (table' : list CardRef)
  (input' : list Line) :
  dealt_players g ->
  player_turn g (Some k) table ai input = Ok (g', table', input') ->
  dealt_players g'
  /\ exists played,
       In played (hand g k) /\ table' = table ++ [played]
       /\ hand g' k = remove_ref played (hand g k)
       /\ (forall j, j <> k -> hand g' j = hand g j)
       /\ (forall r, owner (deref (deck g') r) = owner (deref (deck g) r))
       /\ t1_points g' = t1_points g /\ t2_points g' = t2_points g.
Proof.
  intros Hd H.
  apply player_turn_update in H as (p & played & Hp & Hin & -> & ->).
  destruct g as [d [n1 u1 c1 m1] [n2 u2 c2 m2] [n3 u3 c3 m3] [n4 u4 c4 m4]
                   t1 t2].
  destruct Hd as (Hn & Hu & Hm). simpl in Hn, Hu, Hm.
  injection Hn as -> -> -> ->. injection Hu as -> -> -> ->.
  injection Hm as -> -> -> ->.
  assert (Ho : forall r d',
             d' = (if negb ai && Nat.eqb (length (cards p)) 13
                   then set_ato (suit (deref d played)) d else d) ->
             owner (deref d' r) = owner (deref d r)).
  { intros r d' ->. destruct (_ && _); [apply set_ato_owner|reflexivity]. }
  unfold get_player in Hp. simpl in Hp.
  destruct k as [|[|[|[|[|k]]]]]; simpl in Hp; try discriminate;
    injection Hp as <-; simpl in Hin |- *;
    (split; [repeat split|]); exists played;
    (split; [exact Hin|]); (split; [reflexivity|]);
    (split; [reflexivity|]);
    (split; [|split; [intro r; now apply Ho|split; reflexivity]]);
    intros [|[|[|[|[|j]]]]] Hj; try reflexivity; congruence.
Qed.

Lemma owned_hands_turn (g g' : West) (k : PlayerId) (played : CardRef) :
  owned_hands g ->
  hand g' k = remove_ref played (hand g k) ->
  (forall j, j <> k -> hand g' j = hand g j) ->
  (forall r, owner (deref (deck g') r) = owner (deref (deck g) r)) ->
  owned_hands g'.
Proof.
  intros Ho Hk Hj Hd j r Hin. rewrite Hd. apply Ho.
  destruct (Nat.eq_dec j k) as [->|Hne].
  - rewrite Hk in Hin. now apply remove_ref_incl in Hin.
  - now rewrite <- (Hj j Hne).
Qed.

(** X13: a turn moves one card from the hand of the player whose turn
    it is to the end of the table, and does nothing else to the hands or
    the scores: that hand loses the card played, which carries that
    player's name, the other three hands and both scores stay, and the
    players remain named, seated and paired as dealt. *)
Theorem player_turn_plays_own_card (g : West) (k : PlayerId)
  (table : list CardRef) (ai : bool) (input : list Line) (g' : West)
  (table' : list CardRef) (input' : list Line) :
  dealt_players g -> owned_hands g ->
  player_turn g (Some k) table ai input = Ok (g', table', input') ->
  dealt_players g' /\ owned_hands g'
  /\ exists played,
       table' = table ++ [played]
       /\ In played (hand g k)
       /\ owner (deref (deck g') played) = Some k
       /\ hand g' k = remove_ref played (hand g k)
       /\ length (hand g k) = S (length (hand g' k))
       /\ (forall j, j <> k -> hand g' j = hand g j)
       /\ t1_points g' = t1_points g /\ t2_points g' = t2_points g.
Proof.
  intros Hd Ho H.
  destruct (player_turn_hand _ _ _ _ _ _ _ _ Hd H)
    as (Hd' & played & Hin & Ht & Hk & Hj & Hown & Hp1 & Hp2).
  split; [exact Hd'|]. split; [eapply owned_hands_turn; eauto|].
  exists played. repeat split; auto.
  - rewrite Hown. now apply Ho.
  - rewrite Hk. now apply remove_ref_length.
Qed.

Lemma player_turn_plays_own_card_witness :
  exists g' played input',
    player_turn (prepare_cards deck_by_threes) (Some 1%nat) [] false
      patient_lines = Ok (g', [played], input')
    /\ owner (deref (deck g') played) = Some 1%nat
    /\ length (hand g' 1%nat) = 12%nat.
Proof.
  destruct (player_turn (prepare_cards deck_by_threes) (Some 1%nat) [] false
              patient_lines) as [[[g' table'] input']|e] eqn:E.
  - destruct (player_turn_plays_own_card _ _ _ _ _ _ _ _
                (prepare_cards_dealt deck_by_threes)
                (prepare_cards_owned deck_by_threes eq_refl) E)
      as (_ & _ & played & -> & _ & Ho & _ & Hl & _).
    exists g', played, input'. split; [reflexivity|]. split; [exact Ho|].
    change (length (hand (prepare_cards deck_by_threes) 1%nat))
      with 13%nat in Hl.
    congruence.
  - vm_compute in E. discriminate E.
Defined.

(** ** The turns of a round *)

Lemma Forall2_In_impl {A B : Type} (P Q : A -> B -> Prop)
  (l : list A) (l' : list B) :
  Forall2 P l l' -> (forall a b, In a l -> P a b -> Q a b) ->
  Forall2 Q l l'.
Proof.
  induction 1 as [|a b l l' Hab _ IH]; intros H; constructor.
  - apply H; [now left|exact Hab].
  - apply IH. intros a' b' Ha'. apply H. now right.
Qed.

(** The turns of the players named [ks], each once: every one of them
    gives one card of its hand to the table, in that order. *)
Lemma player_turns_hands (ks : list PlayerId) :
  forall (g : West) (table : list CardRef) (input : list Line)
         (g' : West) (table' : list CardRef) (input' : list Line),
    dealt_players g -> NoDup ks ->
    player_turns g (turns_of ks) table input = Ok (g', table', input') ->
    dealt_players g'
    /\ exists cs,
         table' = table ++ cs
         /\ Forall2 (fun k c => In c (hand g k)
                                /\ hand g' k = remove_ref c (hand g k))
                    ks cs
         /\ (forall j, ~ In j ks -> hand g' j = hand g j)
         /\ (forall r, owner (deref (deck g') r) = owner (deref (deck g) r))
         /\ t1_points g' = t1_points g /\ t2_points g' = t2_points g.
Proof.
  induction ks as [|k ks IH]; intros g table input g' table' input' Hd Hnd H.
  - simpl in H. injection H as <- <- <-. split; [exact Hd|].
    exists []. rewrite app_nil_r. repeat split; auto.
  - simpl in H. inv_bind H. destruct a as [[g1 table1] input1].
    inversion Hnd as [|? ? Hk Hnd']; subst.
    destruct (player_turn_hand _ _ _ _ _ _ _ _ Hd E)
      as (Hd1 & played & Hin & -> & Hk1 & Hj1 & Ho1 & Hp1 & Hp2).
    destruct (IH _ _ _ _ _ _ Hd1 Hnd' H)
      as (Hd' & cs & -> & Hf & Hj & Ho & Hq1 & Hq2).
    split; [exact Hd'|]. exists (played :: cs).
    split; [now rewrite <- app_assoc|]. split; [|split; [|split; [|split]]].
    + constructor.
      * split; [exact Hin|]. now rewrite (Hj k Hk).
      * apply (Forall2_In_impl _ _ _ _ Hf). intros j c Hjin [Hc Hh].
        assert (Hne : j <> k) by (intros ->; contradiction).
        now rewrite <- (Hj1 j Hne).
    + intros j Hnin. rewrite Hj by (intros Hc; apply Hnin; now right).
      apply Hj1. intros ->. apply Hnin. now left.
    + intros r. now rewrite Ho.
    + congruence.
    + congruence.
Qed.

(** ** A round *)

(** Among the dealt players a round led by player [k] is the turns of
    the four players in the order of the seats from [k] on, then the
    point. *)
Lemma play_round_eq (g : West) (k : PlayerId) (input : list Line) :
  dealt_players g -> In k [1; 2; 3; 4]%nat ->
  play_round g (Some k) input
  = ('(g', table', input') <-
       player_turns g (turns_of (seats_from (k - 1))) [] input ;;
     settle g' table' input').
Proof.
  intros Hd Hk.
  destruct g as [d [n1 u1 c1 m1] [n2 u2 c2 m2] [n3 u3 c3 m3] [n4 u4 c4 m4]
                   t1 t2].
  destruct Hd as (Hn & Hu & Hm). simpl in Hn, Hu, Hm.
  injection Hn as -> -> -> ->. injection Hu as -> -> -> ->.
  injection Hm as -> -> -> ->.
  simpl in Hk.
  destruct Hk as [<-|[<-|[<-|[<-|[]]]]]; reflexivity.
Qed.

Lemma play_round_stranger (g : West) (t_win : option PlayerId)
  (input : list Line) :
  dealt_players g ->
  (forall k, t_win = Some k -> ~ In k [1; 2; 3; 4]%nat) ->
  play_round g t_win input = Raise AttributeError.
Proof.
  intros Hd Hk.
  destruct g as [d [n1 u1 c1 m1] [n2 u2 c2 m2] [n3 u3 c3 m3] [n4 u4 c4 m4]
                   t1 t2].
  destruct Hd as (Hn & Hu & Hm). simpl in Hn, Hu, Hm.
  injection Hn as -> -> -> ->.
  destruct t_win as [k|]; [|reflexivity].
  specialize (Hk k eq_refl). simpl in Hk.
  destruct k as [|[|[|[|[|k]]]]]; try reflexivity; exfalso; apply Hk; auto.
Qed.

Lemma hand_stranger (g : West) (k : PlayerId) :
  dealt_players g -> ~ In k [1; 2; 3; 4]%nat -> hand g k = [].
Proof.
  intros (Hn & _) Hk. unfold hand, get_player.
  injection Hn as -> -> -> ->. simpl in Hk.
  destruct k as [|[|[|[|[|k]]]]]; try reflexivity; exfalso; apply Hk; auto.
Qed.

(** The point: it goes to the first partnership exactly when the winning
    card is player 1's or player 3's. *)
Lemma settle_Ok (g1 : West) (table1 : list CardRef) (input1 : list Line)
  (g' : West) (t' : option PlayerId) (input' : list Line) :
  dealt_players g1 ->
  settle g1 table1 input1 = Ok (g', t', input') ->
  dealt_players g' /\ input' = input1 /\ deck g' = deck g1
  /\ (forall j, hand g' j = hand g1 j)
  /\ (exists w, winner_card (map (deref (deck g1)) table1) = Ok w
                /\ t' = owner w)
  /\ (((t' = Some 1%nat \/ t' = Some 3%nat)
       /\ t1_points g' = t1_points g1 + 1 /\ t2_points g' = t2_points g1)
      \/ (t' <> Some 1%nat /\ t' <> Some 3%nat
          /\ t1_points g' = t1_points g1 /\ t2_points g' = t2_points g1 + 1)).
Proof.
  intros Hd H. unfold settle in H. inv_bind H.
  unfold winner_team in E. inv_bind E. injection E as <-.
  destruct Hd as (Hn & Hu & Hm).
  pose proof Hn as Hn'. pose proof Hm as Hm'.
  injection Hn' as N1 _ _ _. injection Hm' as M1 _ _ _.
  rewrite N1, M1 in H.
  assert (Hsame : forall j,
             same_player (owner a0) (Some j) = true <-> owner a0 = Some j).
  { intros j. destruct (owner a0) as [o|]; simpl.
    - rewrite Nat.eqb_eq. split; congruence.
    - split; discriminate. }
  match type of H with
  | (if ?b then _ else _) = _ => destruct b eqn:Eb
  end;
    injection H as <- <- <-;
    (split; [repeat split; assumption|]); (split; [reflexivity|]);
    (split; [reflexivity|]); (split; [reflexivity|]);
    (split; [exists a0; auto|]).
  - left. apply orb_true_iff in Eb. rewrite !Hsame in Eb. auto.
  - right. apply orb_false_iff in Eb as [E1 E3].
    split; [intros Hc; apply Hsame in Hc; exact (eq_true_false_abs _ Hc E1)|].
    split; [intros Hc; apply Hsame in Hc; exact (eq_true_false_abs _ Hc E3)|].
    split; reflexivity.
Qed.

Lemma winner_card_In (table : list Card) (w : Card) :
  winner_card table = Ok w -> In w table.
Proof.
  destruct table as [|first rest]; [discriminate|].
  intros H.
  assert (E : fold_left challenge (first :: rest) first = w)
    by (unfold winner_card in H; congruence).
  rewrite <- E.
  destruct (fold_challenge_In (first :: rest) first) as [E'|H'];
    [rewrite E'; now left|exact H'].
Qed.

Lemma Forall2_In_l {A B : Type} (P : A -> B -> Prop) (l : list A)
  (l' : list B) (a : A) :
  Forall2 P l l' -> In a l -> exists b, In b l' /\ P a b.
Proof.
  induction 1 as [|x y l l' Hxy _ IH]; intros Hin; [destruct Hin|].
  destruct Hin as [<-|Hin]; [exists y; split; [now left|exact Hxy]|].
  destruct (IH Hin) as (b & Hb & Hab). exists b. split; [now right|exact Hab].
Qed.

Lemma Forall2_In_r {A B : Type} (P : A -> B -> Prop) (l : list A)
  (l' : list B) (b : B) :
  Forall2 P l l' -> In b l' -> exists a, In a l /\ P a b.
Proof.
  induction 1 as [|x y l l' Hxy _ IH]; intros Hin; [destruct Hin|].
  destruct Hin as [<-|Hin]; [exists x; split; [now left|exact Hxy]|].
  destruct (IH Hin) as (a & Ha & Hab). exists a. split; [now right|exact Hab].
Qed.

Lemma seats_from_all (k : PlayerId) :
  In k [1; 2; 3; 4]%nat ->
  NoDup (seats_from (k - 1))
  /\ length (seats_from (k - 1)) = 4%nat
  /\ hd 0%nat (seats_from (k - 1)) = k
  /\ forall j, In j (seats_from (k - 1)) <-> In j [1; 2; 3; 4]%nat.
Proof.
  simpl. intros [<-|[<-|[<-|[<-|[]]]]]; simpl;
    (split; [repeat constructor; simpl; intuition discriminate|]);
    (split; [reflexivity|]); (split; [reflexivity|]);
    intros j; simpl; tauto.
Qed.

(** A round among the dealt players, in full. *)
Lemma play_round_hands (g : West) (k : PlayerId) (input : list Line)
  (g' : West) (t' : option PlayerId) (input' : list Line) :
  dealt_players g -> owned_hands g ->
  play_round g (Some k) input = Ok (g', t', input') ->
  In k [1; 2; 3; 4]%nat /\ dealt_players g' /\ owned_hands g'
  /\ (exists cs w,
        Forall2 (fun j c => In c (hand g j)
                            /\ hand g' j = remove_ref c (hand g j)
                            /\ owner (deref (deck g') c) = Some j)
                (seats_from (k - 1)) cs
        /\ winner_card (map (deref (deck g')) cs) = Ok w
        /\ t' = owner w)
  /\ (exists j, In j [1; 2; 3; 4]%nat /\ t' = Some j)
  /\ (((t' = Some 1%nat \/ t' = Some 3%nat)
       /\ t1_points g' = t1_points g + 1 /\ t2_points g' = t2_points g)
      \/ (t' <> Some 1%nat /\ t' <> Some 3%nat
          /\ t1_points g' = t1_points g /\ t2_points g' = t2_points g + 1)).
Proof.
  intros Hd Ho H.
  destruct (in_dec Nat.eq_dec k [1; 2; 3; 4]%nat) as [Hk|Hk];
    [|rewrite play_round_stranger in H; [discriminate|exact Hd|];
      intros k' [= <-]; exact Hk].
  split; [exact Hk|].
  rewrite (play_round_eq g k input Hd Hk) in H. inv_bind H.
  destruct a as [[g1 table1] input1].
  destruct (seats_from_all k Hk) as (Hnd & Hlen & _ & Hall).
  destruct (player_turns_hands _ _ _ _ _ _ _ Hd Hnd E)
    as (Hd1 & cs & Ht & Hf & Hj & Hown & Hp1 & Hp2).
  simpl in Ht. subst table1.
  destruct (settle_Ok _ _ _ _ _ _ Hd1 H)
    as (Hd' & -> & Hdeck & Hh & (w & Hw & ->) & Hpts).
  assert (Hf' : Forall2 (fun j c => In c (hand g j)
                            /\ hand g' j = remove_ref c (hand g j)
                            /\ owner (deref (deck g') c) = Some j)
                  (seats_from (k - 1)) cs).
  { apply (Forall2_In_impl _ _ _ _ Hf). intros j c _ [Hin Hrem].
    split; [exact Hin|]. split; [now rewrite Hh|].
    rewrite Hdeck, Hown. now apply Ho. }
  split; [exact Hd'|]. split.
  { intros j r Hin. rewrite Hh in Hin. rewrite Hdeck, Hown. apply Ho.
    destruct (in_dec Nat.eq_dec j (seats_from (k - 1))) as [Hjin|Hjn].
    - destruct (Forall2_In_l _ _ _ _ Hf Hjin) as (c & _ & _ & Hrem).
      rewrite Hrem in Hin. now apply remove_ref_incl in Hin.
    - now rewrite <- (Hj j Hjn). }
  rewrite <- Hdeck in Hw.
  split; [exists cs, w; auto|]. split.
  { apply winner_card_In, in_map_iff in Hw as (c & <- & Hc).
    destruct (Forall2_In_r _ _ _ _ Hf' Hc) as (j & Hjin & _ & _ & Hoj).
    exists j. split; [now apply Hall|exact Hoj]. }
  rewrite <- Hp1, <- Hp2. exact Hpts.
Qed.

(** X14: a round among the dealt players.  Led by player [k], the four
    players play one card each from their own hands in the order of the
    seats from [k] on; every hand is one card shorter afterwards; the
    next leader is the owner of the card [winner_card] picks on that
    table, one of the four players; and the point goes to the first
    partnership exactly when that owner is player 1 or player 3, to the
    second otherwise. *)
Theorem play_round_one_card_each (g : West) (k : PlayerId)
  (input : list Line) (g' : West) (t' : option PlayerId)
  (input' : list Line) :
  dealt_players g -> owned_hands g ->
  play_round g (Some k) input = Ok (g', t', input') ->
  dealt_players g' /\ owned_hands g'
  /\ (exists cs w,
        Forall2 (fun j c => In c (hand g j)
                            /\ hand g' j = remove_ref c (hand g j)
                            /\ owner (deref (deck g') c) = Some j)
                (seats_from (k - 1)) cs
        /\ winner_card (map (deref (deck g')) cs) = Ok w
        /\ t' = owner w)
  /\ hd 0%nat (seats_from (k - 1)) = k
  /\ (forall j, In j [1; 2; 3; 4]%nat ->
                length (hand g j) = S (length (hand g' j)))
  /\ (exists j, In j [1; 2; 3; 4]%nat /\ t' = Some j)
  /\ (((t' = Some 1%nat \/ t' = Some 3%nat)
       /\ t1_points g' = t1_points g + 1 /\ t2_points g' = t2_points g)
      \/ (t' <> Some 1%nat /\ t' <> Some 3%nat
          /\ t1_points g' = t1_points g /\ t2_points g' = t2_points g + 1)).
Proof.
  intros Hd Ho H.
  destruct (play_round_hands _ _ _ _ _ _ Hd Ho H)
    as (Hk & Hd' & Ho' & (cs & w & Hf & Hw & Ht) & Hj & Hpts).
  destruct (seats_from_all k Hk) as (_ & _ & Hhd & Hall).
  split; [exact Hd'|]. split; [exact Ho'|].
  split; [exists cs, w; auto|]. split; [exact Hhd|].
  split; [|split; [exact Hj|exact Hpts]].
  intros j Hjin. apply Hall in Hjin.
  destruct (Forall2_In_l _ _ _ _ Hf Hjin) as (c & _ & Hin & Hrem & _).
  rewrite Hrem. now apply remove_ref_length.
Qed.

Lemma play_round_one_card_each_witness :
  exists g' t' input',
    play_round (prepare_cards deck_by_threes) (Some 1%nat) patient_lines
    = Ok (g', t', input')
    /\ forall j, In j [1; 2; 3; 4]%nat ->
                 length (hand (prepare_cards deck_by_threes) j)
                 = S (length (hand g' j)).
Proof.
  destruct (play_round (prepare_cards deck_by_threes) (Some 1%nat)
              patient_lines) as [[[g' t'] input']|e] eqn:E.
  - exists g', t', input'. split; [reflexivity|].
    apply (play_round_one_card_each _ _ _ _ _ _
             (prepare_cards_dealt deck_by_threes)
             (prepare_cards_owned deck_by_threes eq_refl) E).
  - vm_compute in E. discriminate E.
Defined.

(** ** West.start *)

Lemma start_loop_hands (fuel : nat) :
  forall (g : West) (t_win : option PlayerId) (game_r : Z)
         (input : list Line) (printed : list (Z * Z))
         (g' : West) (out : Output),
    dealt_players g -> owned_hands g ->
    (exists k, In k [1; 2; 3; 4]%nat /\ t_win = Some k) ->
    1 <= game_r <= 14 ->
    (forall j, In j [1; 2; 3; 4]%nat ->
               length (hand g j) = Z.to_nat (14 - game_r)) ->
    start_loop fuel g t_win game_r input printed = Some (Ok (g', out)) ->
    dealt_players g' /\ forall j, hand g' j = [].
Proof.
  induction fuel as [|fuel IH];
    intros g t_win game_r input printed g' out Hd Ho (k & Hk & ->) Hr Hlen H;
    simpl in H; [discriminate|].
  destruct (game_r =? 14) eqn:E14.
  - apply Z.eqb_eq in E14. subst game_r. injection H as <- _.
    split; [exact Hd|]. intros j.
    destruct (in_dec Nat.eq_dec j [1; 2; 3; 4]%nat) as [Hj|Hj].
    + specialize (Hlen j Hj). now destruct (hand g j).
    + now apply hand_stranger.
  - apply Z.eqb_neq in E14.
    destruct (play_round g (Some k) input) as [[[g1 t1] input1]|e] eqn:Er;
      [|discriminate].
    destruct (play_round_hands _ _ _ _ _ _ Hd Ho Er)
      as (_ & Hd1 & Ho1 & (cs & w & Hf & _) & Ht1 & _).
    apply (IH _ _ _ _ _ _ _ Hd1 Ho1 Ht1) in H; [exact H|lia|].
    intros j Hj. destruct (seats_from_all k Hk) as (_ & _ & _ & Hall).
    apply Hall in Hj.
    destruct (Forall2_In_l _ _ _ _ Hf Hj) as (c & _ & Hin & Hrem & _).
    pose proof (remove_ref_length _ _ Hin) as Hl. rewrite <- Hrem in Hl.
    apply Hall in Hj. specialize (Hlen j Hj). lia.
Qed.

(** X15: a match on a dealt deck of fifty-two cards that reaches its
    verdict has played every card: all four hands are empty at the
    end. *)
Theorem start_plays_every_card (d : list Card) (input : list Line)
  (fuel : nat) (g : West) (out : Output) :
  length d = 52%nat ->
  start fuel (prepare_cards d) input = Some (Ok (g, out)) ->
  cards (player_1 g) = [] /\ cards (player_2 g) = []
  /\ cards (player_3 g) = [] /\ cards (player_4 g) = [].
Proof.
  intros Hl H. unfold start in H.
  destruct (prepare_cards_hands d Hl) as (H1 & H2 & H3 & H4).
  apply start_loop_hands in H as [(Hn & _) Hh].
  - injection Hn as N1 N2 N3 N4.
    pose proof (Hh 1%nat) as E1. pose proof (Hh 2%nat) as E2.
    pose proof (Hh 3%nat) as E3. pose proof (Hh 4%nat) as E4.
    unfold hand, get_player in E1, E2, E3, E4.
    rewrite N1, N2, N3, N4 in *. simpl in E1, E2, E3, E4. auto.
  - apply prepare_cards_dealt.
  - now apply prepare_cards_owned.
  - exists 1%nat. split; [simpl; auto|reflexivity].
  - lia.
  - intros j Hj. change (Z.to_nat (14 - 1)) with 13%nat.
    simpl in Hj. destruct Hj as [<-|[<-|[<-|[<-|[]]]]].
    + change (hand (prepare_cards d) 1%nat)
        with (cards (player_1 (prepare_cards d))). now rewrite H1.
    + change (hand (prepare_cards d) 2%nat)
        with (cards (player_2 (prepare_cards d))). now rewrite H2.
    + change (hand (prepare_cards d) 3%nat)
        with (cards (player_3 (prepare_cards d))). now rewrite H3.
    + change (hand (prepare_cards d) 4%nat)
        with (cards (player_4 (prepare_cards d))). now rewrite H4.
Qed.

Lemma start_plays_every_card_witness :
  exists g out,
    start 14 (prepare_cards deck_by_threes) patient_lines = Some (Ok (g, out))
    /\ cards (player_1 g) = [] /\ cards (player_4 g) = [].
Proof.
  destruct (start 14 (prepare_cards deck_by_threes) patient_lines)
    as [[[g out]|e]|] eqn:E.
  - exists g, out. split; [reflexivity|].
    destruct (start_plays_every_card deck_by_threes _ _ _ _ eq_refl E)
      as (E1 & _ & _ & E4).
    split; [exact E1|exact E4].
  - vm_compute in E. discriminate E.
  - vm_compute in E. discriminate E.
Defined.

(** ** The exceptions of a match *)

Lemma remove_card_Raise (x : Card) (l : list Card) (e : Exn) :
  remove_card x l = Raise e -> e = ValueError.
Proof.
  induction l as [|y l IH]; simpl; [congruence|].
  destruct (Card_eq_dec x y); [discriminate|].
  destruct (remove_card x l); simpl; [discriminate|].
  intros [= <-]. now apply IH.
Qed.

Lemma play_Raise (self : Player Card) (c : option Card) (e : Exn) :
  play self c = Raise e -> e = ValueError.
Proof.
  destruct c as [c|]; simpl; [|congruence].
  destruct (remove_card c (cards self)) eqn:E; simpl; [discriminate|].
  intros [= <-]. now apply remove_card_Raise in E.
Qed.

Lemma ai_select_Raise (self : Player Card) (table : list Card) (e : Exn) :
  cards self <> [] -> ai_select self table = Raise e -> e = ValueError.
Proof.
  intros Hne. unfold ai_select.
  destruct (cards self) as [|c0 hand]; [congruence|].
  destruct (has self (lead_suit self table)); [|apply play_Raise].
  unfold follow_suit.
  destruct (gr_card _ _ _), (sm_card _ _ _); try destruct (_ && _);
    apply play_Raise.
Qed.

Lemma ai_select_ref_Raise (deck : list Card) (self : Player CardRef)
  (table : list CardRef) (e : Exn) :
  cards self <> [] -> ai_select_ref deck self table = Raise e ->
  e = ValueError.
Proof.
  intros Hne. unfold ai_select_ref.
  destruct (ai_select (view deck self) (map (deref deck) table))
    as [[c p]|e'] eqn:E; simpl.
  - destruct (find _ (cards self)); [discriminate|congruence].
  - intros [= <-]. apply ai_select_Raise in E; [exact E|].
    simpl. destruct (cards self); [congruence|discriminate].
Qed.

Lemma player_select_Raise (deck : list Card) (self : Player CardRef)
  (input : list Line) (e : Exn) :
  player_select deck self input = Raise e -> e = NoInput.
Proof.
  induction input as [|[[r s]|] input IH]; simpl; [congruence| |exact IH].
  destruct (get_card deck self r s); [discriminate|exact IH].
Qed.

Lemma player_turn_Raise (g : West) (k : PlayerId) (table : list CardRef)
  (ai : bool) (input : list Line) (e : Exn) :
  hand g k <> [] ->
  player_turn g (Some k) table ai input = Raise e -> fault_or_input e.
Proof.
  unfold hand, player_turn.
  destruct (get_player g (Some k)) as [p|e'] eqn:Ep; [|congruence].
  intros Hne. simpl. destruct ai; simpl.
  - destruct (ai_select_ref (deck g) p table) as [[c p']|e'] eqn:E; simpl;
      [discriminate|].
    intros [= <-]. left. now apply ai_select_ref_Raise in E.
  - destruct (Nat.eqb (length (cards p)) 13);
      destruct (player_select (deck g) p input) as [[[c p'] i]|e'] eqn:E;
      simpl; try discriminate;
      intros [= <-]; right; now apply player_select_Raise in E.
Qed.

Lemma player_turns_Raise (ks : list PlayerId) :
  forall (g : West) (table : list CardRef) (input : list Line) (e : Exn),
    dealt_players g -> NoDup ks ->
    (forall k, In k ks -> hand g k <> []) ->
    player_turns g (turns_of ks) table input = Raise e ->
    fault_or_input e.
Proof.
  induction ks as [|k ks IH]; intros g table input e Hd Hnd Hne H;
    simpl in H; [discriminate|].
  match type of H with
  | bind ?r _ = _ => destruct r as [[[g1 table1] input1]|e'] eqn:E
  end; simpl in H.
  - inversion Hnd as [|? ? Hk Hnd']; subst.
    destruct (player_turn_hand _ _ _ _ _ _ _ _ Hd E)
      as (Hd1 & played & _ & _ & _ & Hj & _).
    apply (IH _ _ _ _ Hd1 Hnd') in H; [exact H|].
    intros j Hjin. rewrite Hj; [apply Hne; now right|].
    intros ->. contradiction.
  - injection H as <-. apply player_turn_Raise in E; [exact E|].
    apply Hne. now left.
Qed.

Lemma play_round_Raise (g : West) (k : PlayerId) (input : list Line)
  (e : Exn) :
  dealt_players g -> In k [1; 2; 3; 4]%nat ->
  (forall j, In j [1; 2; 3; 4]%nat -> hand g j <> []) ->
  play_round g (Some k) input = Raise e -> fault_or_input e.
Proof.
  intros Hd Hk Hne H. rewrite (play_round_eq g k input Hd Hk) in H.
  destruct (seats_from_all k Hk) as (Hnd & Hlen & _ & Hall).
  destruct (player_turns g (turns_of (seats_from (k - 1))) [] input)
    as [[[g1 table1] input1]|e'] eqn:E; simpl in H.
  - exfalso.
    destruct (player_turns_hands _ _ _ _ _ _ _ Hd Hnd E)
      as (_ & cs & -> & Hf & _).
    apply Forall2_length in Hf. rewrite Hlen in Hf.
    unfold settle, winner_team, winner_card in H. simpl app in H.
    destruct cs as [|c cs]; [discriminate|]. simpl in H.
    destruct (_ || _); discriminate.
  - injection H as <-. apply player_turns_Raise in E; auto.
    intros j Hj. apply Hne. now apply Hall.
Qed.

Lemma start_loop_Raise (fuel : nat) :
  forall (g : West) (t_win : option PlayerId) (game_r : Z)
         (input : list Line) (printed : list (Z * Z)) (e : Exn),
    dealt_players g -> owned_hands g ->
    (exists k, In k [1; 2; 3; 4]%nat /\ t_win = Some k) ->
    1 <= game_r <= 14 ->
    (forall j, In j [1; 2; 3; 4]%nat ->
               length (hand g j) = Z.to_nat (14 - game_r)) ->
    start_loop fuel g t_win game_r input printed = Some (Raise e) ->
    fault_or_input e.
Proof.
  induction fuel as [|fuel IH];
    intros g t_win game_r input printed e Hd Ho (k & Hk & ->) Hr Hlen H;
    simpl in H; [discriminate|].
  destruct (game_r =? 14) eqn:E14; [discriminate|].
  apply Z.eqb_neq in E14.
  destruct (play_round g (Some k) input) as [[[g1 t1] input1]|e'] eqn:Er.
  - destruct (play_round_hands _ _ _ _ _ _ Hd Ho Er)
      as (_ & Hd1 & Ho1 & (cs & w & Hf & _) & Ht1 & _).
    apply (IH _ _ _ _ _ _ Hd1 Ho1 Ht1) in H; [exact H|lia|].
    intros j Hj. destruct (seats_from_all k Hk) as (_ & _ & _ & Hall).
    apply Hall in Hj.
    destruct (Forall2_In_l _ _ _ _ Hf Hj) as (c & _ & Hin & Hrem & _).
    pose proof (remove_ref_length _ _ Hin) as Hl. rewrite <- Hrem in Hl.
    apply Hall in Hj. specialize (Hlen j Hj). lia.
  - injection H as <-. apply play_round_Raise in Er; auto.
    intros j Hj Hnil. specialize (Hlen j Hj). rewrite Hnil in Hlen.
    simpl length in Hlen. lia.
Qed.

(** X16: a match on a dealt deck of fifty-two cards can only end in two
    ways besides its verdict: on the [ValueError] of [ai_select], or by
    running out of input.  It never indexes an empty hand or an empty
    table, and never follows a missing player. *)
Theorem start_faults (d : list Card) (input : list Line) (fuel : nat)
  (e : Exn) :
  length d = 52%nat ->
  start fuel (prepare_cards d) input = Some (Raise e) ->
  e = ValueError \/ e = NoInput.
Proof.
  intros Hl H. unfold start in H.
  destruct (prepare_cards_hands d Hl) as (H1 & H2 & H3 & H4).
  apply start_loop_Raise in H; [exact H| | | | |].
  - apply prepare_cards_dealt.
  - now apply prepare_cards_owned.
  - exists 1%nat. split; [simpl; auto|reflexivity].
  - lia.
  - intros j Hj. change (Z.to_nat (14 - 1)) with 13%nat.
    simpl in Hj. destruct Hj as [<-|[<-|[<-|[<-|[]]]]].
    + change (hand (prepare_cards d) 1%nat)
        with (cards (player_1 (prepare_cards d))). now rewrite H1.
    + change (hand (prepare_cards d) 2%nat)
        with (cards (player_2 (prepare_cards d))). now rewrite H2.
    + change (hand (prepare_cards d) 3%nat)
        with (cards (player_3 (prepare_cards d))). now rewrite H3.
    + change (hand (prepare_cards d) 4%nat)
        with (cards (player_4 (prepare_cards d))). now rewrite H4.
Qed.

Lemma start_faults_witness :
  exists e,
    start 14 (prepare_cards deck_by_23s) patient_lines = Some (Raise e)
    /\ (e = ValueError \/ e = NoInput).
Proof.
  assert (E : start 14 (prepare_cards deck_by_23s) patient_lines
              = Some (Raise ValueError)) by (vm_compute; reflexivity).
  exists ValueError. split; [exact E|].
  exact (start_faults deck_by_23s patient_lines 14 ValueError eq_refl E).
Defined.

(** Running the loop longer does not change what it returned. *)
Lemma start_loop_more (fuel : nat) :
  forall (g : West) (t_win : option PlayerId) (game_r : Z)
         (input : list Line) (printed : list (Z * Z))
         (r : Result (West * Output)) (fuel' : nat),
    start_loop fuel g t_win game_r input printed = Some r ->
    (fuel <= fuel')%nat ->
    start_loop fuel' g t_win game_r input printed = Some r.
Proof.
  induction fuel as [|fuel IH];
    intros g t_win game_r input printed r fuel' H Hle;
    simpl in H; [discriminate|].
  destruct fuel' as [|fuel']; [lia|]. simpl.
  destruct (game_r =? 14); [exact H|].
  destruct (play_round g t_win input) as [[[g1 t1] input1]|e]; [|exact H].
  apply IH; [exact H|lia].
Qed.

(** X17: the loop of [start] plays at most thirteen rounds, whatever the
    game and the input: within fourteen iterations the match has printed
    thirteen boards and reached its verdict, or has raised an exception,
    or stands in [player_select] asking for a line that never comes
    ([NoInput]: there the program retries for ever and does not end); a
    larger bound gives the same outcome. *)
Theorem start_ends (g : West) (input : list Line) (fuel : nat) :
  (14 <= fuel)%nat ->
  exists r,
    start 14 g input = Some r /\ start fuel g input = Some r
    /\ ((exists g' out, r = Ok (g', out) /\ length (boards out) = 13%nat)
        \/ (exists e, r = Raise e /\ e <> NoInput)
        \/ r = Raise NoInput).
Proof.
  intros Hf. destruct (start_fuel 14 g input (le_n 14)) as [r Hr].
  exists r. split; [exact Hr|]. split.
  - unfold start in *. now apply (start_loop_more 14).
  - destruct r as [[g' out]|e].
    + left. exists g', out. split; [reflexivity|].
      apply start_loop_boards in Hr as (more & Hb & Hl & _); [|lia].
      rewrite Hb. simpl app. exact Hl.
    + destruct e; [right; left; eexists; split; [reflexivity|discriminate]..
                  |right; right; reflexivity].
Qed.

Lemma start_ends_witness :
  exists r,
    start 14 (prepare_cards deck_by_threes) patient_lines = Some r
    /\ start 20 (prepare_cards deck_by_threes) patient_lines = Some r.
Proof.
  destruct (start_ends (prepare_cards deck_by_threes) patient_lines 20)
    as (r & H14 & H20 & _); [lia|].
  exists r. split; [exact H14|exact H20].
Defined.

(** ** Trump flags during the match *)

Lemma set_ato_length (s : Suit) (d : list Card) :
  length (set_ato s d) = length d.
Proof. apply length_map. Qed.

Lemma first_turn_flags (d : list Card) (input : list Line) (g1 : West)
  (table1 : list CardRef) (input1 : list Line) :
  shuffled d ->
  player_turn (prepare_cards d) (Some 1%nat) [] false input
  = Ok (g1, table1, input1) ->
  exists first,
    table1 = [first]
    /\ deck g1 = set_ato (suit (deref (deck (prepare_cards d)) first))
                   (deck (prepare_cards d))
    /\ (length (cards (player_1 g1)) <= 12)%nat.
Proof.
  intros Hsh H. destruct (shuffled_facts _ Hsh) as (Hlen & _ & _).
  apply player_turn_update in H as (p & played & Hp & Hin & -> & ->).
  rewrite get_player_prepared in Hp. injection Hp as <-.
  assert (S1 : slice d 0 13 = seq 0 13)
    by (unfold slice; now rewrite Hlen).
  exists played. split; [reflexivity|].
  cbn [cards] in *. rewrite S1 in *.
  split; [reflexivity|].
  pose proof (remove_ref_length _ _ Hin) as Hl.
  simpl length in Hl. unfold update, with_cards. simpl. lia.
Qed.

(** X18: from the first card played on, the whole match sees one trump
    suit, the suit of that card: in every later state a card of the deck
    is flagged exactly when it is of that suit, so that on every table
    drawn from the deck same-suit cards carry the same flag and all
    flagged cards share one suit. *)
Theorem match_flags_follow_suit (d : list Card) (input : list Line)
  (g1 : West) (first : CardRef) (input1 : list Line) (g' : West) :
  shuffled d ->
  player_turn (prepare_cards d) (Some 1%nat) [] false input
  = Ok (g1, [first], input1) ->
  reachable g1 g' ->
  (forall c, In c (deck g') ->
             (ato c = true <-> suit c = suit (deref (deck g') first)))
  /\ forall table,
       Forall (fun r => (r < 52)%nat) table ->
       trump_by_suit (map (deref (deck g')) table)
       /\ suit_consistent (map (deref (deck g')) table).
Proof.
  intros Hsh H Hr. destruct (shuffled_facts _ Hsh) as (Hlen & Hato & _).
  destruct (first_turn_flags _ _ _ _ _ Hsh H) as (f & [= <-] & Hd & Hinv).
  destruct (reachable_deck _ _ Hr Hinv) as [Hdeck _].
  assert (Hato0 : Forall (fun c => ato c = false) (deck (prepare_cards d))).
  { apply (map_Forall_eq ato (fun b => b = false) _ d); [|exact Hato].
    now apply prepare_cards_map. }
  assert (Hflag : forall c, In c (deck g') ->
             (ato c = true <-> suit c = suit (deref (deck g') first))).
  { intros c Hc. rewrite Hdeck, Hd in *. rewrite set_ato_suit.
    exact (set_ato_flag _ _ Hato0 c Hc). }
  split; [exact Hflag|]. intros table Ht.
  assert (Hin : forall c, In c (map (deref (deck g')) table) ->
                          In c (deck g')).
  { intros c Hc. apply in_map_iff in Hc as (r & <- & Hrin).
    rewrite Forall_forall in Ht. specialize (Ht r Hrin).
    apply nth_In. rewrite Hdeck, Hd, set_ato_length.
    rewrite (map_length_eq ato _ d) by now apply prepare_cards_map. lia. }
  split.
  - intros c c' Hc Hc' Hs. apply Hin, Hflag in Hc. apply Hin, Hflag in Hc'.
    rewrite Hs in Hc.
    destruct (ato c), (ato c'); try reflexivity.
    + symmetry. apply Hc'. now apply Hc.
    + apply Hc. now apply Hc'.
  - intros c c' Hc Hc' Ha Ha'. apply Hin, Hflag in Hc. apply Hin, Hflag in Hc'.
    apply Hc in Ha. apply Hc' in Ha'. congruence.
Qed.

Lemma match_flags_follow_suit_witness :
  exists g1 first input1,
    player_turn (prepare_cards deck_by_threes) (Some 1%nat) [] false
      patient_lines = Ok (g1, [first], input1)
    /\ trump_by_suit (map (deref (deck g1)) [0; 1; 2; 3]%nat).
Proof.
  destruct (player_turn (prepare_cards deck_by_threes) (Some 1%nat) [] false
              patient_lines) as [[[g1 table1] input1]|e] eqn:E.
  - destruct (first_turn_flags _ _ _ _ _ shuffled_by_threes E)
      as (first & -> & _).
    exists g1, first, input1. split; [reflexivity|].
    apply (match_flags_follow_suit _ _ _ _ _ g1 shuffled_by_threes E
             (reachable_refl g1)).
    repeat constructor.
  - vm_compute in E. discriminate E.
Defined.

(** ** PokerGame.display_cards *)

Lemma by_suit_Permutation (l : list Card) :
  Permutation l
    (filter (fun c => Suit_eqb (suit c) HEARTS) l
     ++ filter (fun c => Suit_eqb (suit c) SPADES) l
     ++ filter (fun c => Suit_eqb (suit c) DIAMONDS) l
     ++ filter (fun c => Suit_eqb (suit c) CLUBS) l).
Proof.
  induction l as [|a l IH]; simpl; [constructor|].
  destruct (suit a); simpl.
  - now constructor.
  - rewrite !app_assoc. apply Permutation_cons_app.
    now rewrite <- !app_assoc.
  - now apply Permutation_cons_app.
  - rewrite !app_assoc. apply Permutation_cons_app.
    now rewrite <- !app_assoc.
Qed.

Lemma StronglySorted_app {A : Type} (R : A -> A -> Prop) (l1 l2 : list A) :
  StronglySorted R l1 -> StronglySorted R l2 ->
  (forall a b, In a l1 -> In b l2 -> R a b) ->
  StronglySorted R (l1 ++ l2).
Proof.
  induction 1 as [|a l1 H1 IH Ha]; intros H2 Hab; simpl; [exact H2|].
  constructor.
  - apply IH; [exact H2|]. intros x y Hx. apply Hab. now right.
  - apply Forall_app. split; [exact Ha|].
    apply Forall_forall. intros y Hy. apply Hab; [now left|exact Hy].
Qed.

Lemma suit_run_sorted (cards_join : list Card) (s : Suit) :
  StronglySorted displayed_before
    (sort_by_order (filter (fun c => Suit_eqb (suit c) s) cards_join))
  /\ forall c,
       In c (sort_by_order (filter (fun c => Suit_eqb (suit c) s) cards_join))
       -> suit c = s.
Proof.
  assert (Hs : forall c,
    In c (sort_by_order (filter (fun c => Suit_eqb (suit c) s) cards_join))
    -> suit c = s).
  { intros c Hc. apply sort_by_order_In, filter_In in Hc as [_ Hc].
    now apply Suit_eqb_eq. }
  split; [|exact Hs].
  pose proof (sort_by_order_ascending
                (filter (fun c => Suit_eqb (suit c) s) cards_join)) as Ha.
  induction Ha as [|c l Hc Hl IH]; constructor.
  - apply IH. intros x Hx. apply Hs. now right.
  - apply Forall_forall. intros x Hx. right. split.
    + rewrite (Hs c) by now left. symmetry. apply Hs. now right.
    + now apply Hc.
Qed.

(** X19: [display_cards] prints every card it is given, each once, the
    hearts first, then the spades, the diamonds and the clubs, and every
    suit from its lowest card to its highest. *)
Theorem display_cards_sorted (cards_join : list Card) :
  Permutation cards_join (display_cards cards_join)
  /\ StronglySorted displayed_before (display_cards cards_join).
Proof.
  unfold display_cards. split.
  - rewrite (by_suit_Permutation cards_join) at 1.
    repeat apply Permutation_app; apply sort_by_order_Permutation.
  - destruct (suit_run_sorted cards_join HEARTS) as [SH IH].
    destruct (suit_run_sorted cards_join SPADES) as [SS IS].
    destruct (suit_run_sorted cards_join DIAMONDS) as [SD ID].
    destruct (suit_run_sorted cards_join CLUBS) as [SC IC].
    repeat apply StronglySorted_app; auto;
      intros a b Ha Hb; left;
      repeat (apply in_app_iff in Hb as [Hb|Hb]);
      try apply IH in Ha; try apply IS in Ha; try apply ID in Ha;
      try apply IS in Hb; try apply ID in Hb; try apply IC in Hb;
      rewrite Ha, Hb; reflexivity.
Qed.

(** A hand is printed as the spec's display collaborator requires. *)
Example display_cards_hand :
  display_cards [card_of (Num 9) CLUBS 1 false; card_of K HEARTS 1 false;
                 card_of (Num 3) CLUBS 1 false; card_of (Num 2) SPADES 1 false;
                 card_of (Num 4) HEARTS 1 false]
  = [card_of (Num 4) HEARTS 1 false; card_of K HEARTS 1 false;
     card_of (Num 2) SPADES 1 false; card_of (Num 3) CLUBS 1 false;
     card_of (Num 9) CLUBS 1 false].
Proof. reflexivity. Qed.
